(** * User Management API (sample_rest_app/app.py): shallow embedding

    The service is a FastAPI application whose handlers talk to PostgreSQL
    through psycopg2.  The handlers are embedded as computations in a state
    and exception monad over a [World] that holds what the handlers can
    observe or change: the two tables created by [init_database], their
    SERIAL sequences, the connections that are currently open, the server
    clock, the process environment and the lines written through [logger].

    PostgreSQL and psycopg2 are not part of the repository.  Their behaviour
    is modelled just far enough to run the SQL text that appears in app.py
    against the schema that app.py declares:

      users    (id SERIAL PRIMARY KEY, name VARCHAR(100) NOT NULL,
                email VARCHAR(100) UNIQUE NOT NULL,
                created_at TIMESTAMP DEFAULT CURRENT_TIMESTAMP)
      app_logs (id SERIAL PRIMARY KEY, endpoint VARCHAR(100),
                method VARCHAR(10), status_code INTEGER,
                timestamp TIMESTAMP DEFAULT CURRENT_TIMESTAMP)

    Every call that reaches the server (connect, execute, commit) may fail
    with a psycopg2.Error; which calls fail is decided by the environment and
    is recorded in the world as a script of outcomes, consumed one per call.
    cursor(), cursor.close() and fetch* do not reach the server and are folded
    into the statement that precedes them.

    A string stands for a text value that the driver can send (a sequence of
    characters without NUL); lengths are counted in characters, as VARCHAR
    does.  Identifiers are unbounded integers: the end of a SERIAL sequence
    is out of reach of the properties below. *)

From Stdlib Require Import ZArith List String Ascii Bool Lia.
From Stdlib Require Import Sorting.Sorted Sorting.Permutation DecimalString.
Import ListNotations.

Local Open Scope string_scope.
Local Open Scope list_scope.
Local Open Scope Z_scope.

(** ** Data model *)

(** [class User(BaseModel)]; also the shape of a row of table users. *)
Record User := mkUser {
  id : Z;
  name : string;
  email : string;
  created_at : Z
}.

(** [class UserCreate(BaseModel)], after validation. *)
Record UserCreate := mkUserCreate {
  uc_name : string;
  uc_email : string
}.

(** A row of table app_logs. *)
Record LogRow := mkLogRow {
  log_id : Z;
  endpoint : string;
  method : string;
  status_code : Z;
  timestamp : Z
}.

(** One row of the aggregate that /stats returns. *)
Record RequestCount := mkRequestCount {
  rc_endpoint : string;
  rc_method : string;
  rc_status_code : Z;
  rc_count : Z
}.

Module UsersResponse.
Record t := mk { users : list User; count : Z }.
End UsersResponse.

Module UserResponse.
Record t := mk { user : User }.
End UserResponse.

Module StatsResponse.
Record t := mk {
  user_count : Z;
  recent_requests : list RequestCount;
  database_status : string
}.
End StatsResponse.

Module HealthResponse.
(** [timestamp] is the clock reading that the source renders with
    isoformat(). *)
Record t := mk {
  status : string;
  message : string;
  timestamp : Z;
  database : string
}.
End HealthResponse.

Module MessageResponse.
Record t := mk { message : string }.
End MessageResponse.

Module DatabaseTestResponse.
Record t := mk {
  status : string;
  message : string;
  postgresql_version : option string;
  current_database : option string;
  config : list (string * string)
}.
End DatabaseTestResponse.

(** ** Exceptions *)

(** The subclasses of psycopg2.Error that the handlers can meet. *)
Inductive PgClass :=
| IntegrityError
| DataError
| OperationalError
| InterfaceError.

Inductive Exn :=
| PgError (cls : PgClass) (msg : string)
| HTTPException (status_code : Z) (detail : string).

(** ** The world *)

(** What the environment decides for one call that reaches the server. *)
Inductive Outcome :=
| Succeeds
| Raises (msg : string).

(** Work done on a connection and not yet committed. *)
Inductive Change :=
| InsertUser (row : User)
| DeleteUser (user_id : Z)
| InsertLog (row : LogRow).

Record Tables := mkTables {
  users : list User;
  app_logs : list LogRow
}.

Record World := mkWorld {
  tables : Tables;                       (* committed rows, in insertion order *)
  users_id_seq : Z;                      (* next value of users.id *)
  app_logs_id_seq : Z;                   (* next value of app_logs.id *)
  sessions : list (nat * list Change);    (* open connections and their pending work *)
  next_conn : nat;                       (* handle of the next connection *)
  faults : list Outcome;                 (* outcomes of the coming server calls *)
  now : Z;                               (* server clock, in seconds *)
  server_version : string;               (* what SELECT version() answers *)
  environ : list (string * string);      (* os.environ *)
  logger : list string                   (* lines written through logging *)
}.

Definition set_tables (t : Tables) (w : World) : World :=
  mkWorld t (users_id_seq w) (app_logs_id_seq w) (sessions w) (next_conn w)
          (faults w) (now w) (server_version w) (environ w) (logger w).

Definition set_users_id_seq (n : Z) (w : World) : World :=
  mkWorld (tables w) n (app_logs_id_seq w) (sessions w) (next_conn w)
          (faults w) (now w) (server_version w) (environ w) (logger w).

Definition set_app_logs_id_seq (n : Z) (w : World) : World :=
  mkWorld (tables w) (users_id_seq w) n (sessions w) (next_conn w)
          (faults w) (now w) (server_version w) (environ w) (logger w).

Definition set_sessions (s : list (nat * list Change)) (w : World) : World :=
  mkWorld (tables w) (users_id_seq w) (app_logs_id_seq w) s (next_conn w)
          (faults w) (now w) (server_version w) (environ w) (logger w).

Definition set_next_conn (n : nat) (w : World) : World :=
  mkWorld (tables w) (users_id_seq w) (app_logs_id_seq w) (sessions w) n
          (faults w) (now w) (server_version w) (environ w) (logger w).

Definition set_faults (f : list Outcome) (w : World) : World :=
  mkWorld (tables w) (users_id_seq w) (app_logs_id_seq w) (sessions w)
          (next_conn w) f (now w) (server_version w) (environ w) (logger w).

Definition set_environ (e : list (string * string)) (w : World) : World :=
  mkWorld (tables w) (users_id_seq w) (app_logs_id_seq w) (sessions w)
          (next_conn w) (faults w) (now w) (server_version w) e (logger w).

Definition set_logger (l : list string) (w : World) : World :=
  mkWorld (tables w) (users_id_seq w) (app_logs_id_seq w) (sessions w)
          (next_conn w) (faults w) (now w) (server_version w) (environ w) l.

(** ** State and exception monad *)

Inductive Result (A : Type) :=
| Return (a : A)
| Raise (e : Exn).

Arguments Return {A} a.
Arguments Raise {A} e.

Definition M (A : Type) : Type := World -> Result A * World.

Definition ret {A} (a : A) : M A := fun w => (Return a, w).

Definition bind {A B} (m : M A) (f : A -> M B) : M B :=
  fun w =>
    match m w with
    | (Return a, w') => f a w'
    | (Raise e, w') => (Raise e, w')
    end.

Definition raise {A} (e : Exn) : M A := fun w => (Raise e, w).

(** [try: body except ...]: [handler] answers [None] for an exception that no
    except clause matches, which then propagates.  An exception raised by
    the chosen clause propagates as well. *)
Definition try_except {A} (body : M A) (handler : Exn -> option (M A)) : M A :=
  fun w =>
    match body w with
    | (Return a, w') => (Return a, w')
    | (Raise e, w') =>
        match handler e with
        | Some h => h w'
        | None => (Raise e, w')
        end
    end.

Declare Scope monad_scope.
Delimit Scope monad_scope with monad.
Notation "x <- m ;; k" := (bind m (fun x => k))
  (at level 100, m at next level, right associativity) : monad_scope.
Notation "m ;; k" := (bind m (fun _ => k))
  (at level 100, right associativity) : monad_scope.
Local Open Scope monad_scope.

Definition get_world : M World := fun w => (Return w, w).
Definition modify (f : World -> World) : M unit := fun w => (Return tt, f w).

(** [except psycopg2.Error as e]: every class of [PgError], nothing else. *)
Definition except_psycopg2_Error {A} (h : string -> M A) (e : Exn) : option (M A) :=
  match e with
  | PgError _ msg => Some (h msg)
  | HTTPException _ _ => None
  end.

(** ** Strings *)

Definition str_of_int (z : Z) : string := NilZero.string_of_int (Z.to_int z).

Fixpoint all_spaces (s : string) : bool :=
  match s with
  | EmptyString => true
  | String c rest => Ascii.eqb c " "%char && all_spaces rest
  end.

(** Assignment to a VARCHAR(n) column: a value of at most [n] characters is
    stored as it is, a longer one is an error unless the excess is only
    spaces, in which case the value is cut to [n] characters. *)
Definition varchar (n : nat) (s : string) : option string :=
  if (String.length s <=? n)%nat then Some s
  else if all_spaces (substring n (String.length s - n) s)
       then Some (substring 0 n s)
       else None.

(** ** logging, os.getenv, datetime.now *)

Definition logger_error (line : string) : M unit :=
  modify (fun w => set_logger (logger w ++ [line]) w).

Fixpoint lookup (k : string) (d : list (string * string)) : option string :=
  match d with
  | [] => None
  | (k', v) :: rest => if String.eqb k' k then Some v else lookup k rest
  end.

Definition getenv (env : list (string * string)) (k default : string) : string :=
  match lookup k env with
  | Some v => v
  | None => default
  end.

Definition DB_CONFIG (env : list (string * string)) : list (string * string) :=
  [ ("host", getenv env "DB_HOST" "localhost");
    ("database", getenv env "DB_NAME" "appdb");
    ("user", getenv env "DB_USER" "dbuser");
    ("password", getenv env "DB_PASSWORD" "password");
    ("port", getenv env "DB_PORT" "5432") ].

Definition datetime_now : M Z := fun w => (Return (now w), w).

(** ** psycopg2: connections *)

(** The outcome the environment has chosen for the next server call; a
    script that has run out means the store answers normally. *)
Definition next_outcome : M Outcome :=
  fun w =>
    match faults w with
    | [] => (Return Succeeds, w)
    | o :: rest => (Return o, set_faults rest w)
    end.

(** [psycopg2.connect] with the keys of DB_CONFIG *)
Definition connect : M nat :=
  o <- next_outcome ;;
  match o with
  | Succeeds =>
      w <- get_world ;;
      let conn := next_conn w in
      modify (fun w => set_next_conn (S conn) (set_sessions ((conn, []) :: sessions w) w)) ;;
      ret conn
  | Raises msg => raise (PgError OperationalError msg)
  end.

Fixpoint pending_of (conn : nat) (s : list (nat * list Change)) : option (list Change) :=
  match s with
  | [] => None
  | (c, p) :: rest => if Nat.eqb c conn then Some p else pending_of conn rest
  end.

Fixpoint set_pending (conn : nat) (p : list Change) (s : list (nat * list Change))
  : list (nat * list Change) :=
  match s with
  | [] => []
  | (c, q) :: rest =>
      if Nat.eqb c conn then (c, p) :: rest else (c, q) :: set_pending conn p rest
  end.

Fixpoint drop_session (conn : nat) (s : list (nat * list Change))
  : list (nat * list Change) :=
  match s with
  | [] => []
  | (c, q) :: rest =>
      if Nat.eqb c conn then drop_session conn rest else (c, q) :: drop_session conn rest
  end.

Definition apply_change (t : Tables) (c : Change) : Tables :=
  match c with
  | InsertUser row => mkTables (users t ++ [row]) (app_logs t)
  | DeleteUser user_id =>
      mkTables (filter (fun u => negb (id u =? user_id)) (users t)) (app_logs t)
  | InsertLog row => mkTables (users t) (app_logs t ++ [row])
  end.

Definition apply_changes (t : Tables) (p : list Change) : Tables :=
  fold_left apply_change p t.

(** The start of every call made on a connection: a closed connection is
    refused by the driver, an open one reaches the server, which may fail.
    A failure aborts the transaction.  The answer is the content of the
    tables as this connection sees it. *)
Definition server_call (conn : nat) : M Tables :=
  w <- get_world ;;
  match pending_of conn (sessions w) with
  | None => raise (PgError InterfaceError "connection already closed")
  | Some p =>
      o <- next_outcome ;;
      match o with
      | Succeeds => ret (apply_changes (tables w) p)
      | Raises msg =>
          modify (fun w => set_sessions (set_pending conn [] (sessions w)) w) ;;
          raise (PgError OperationalError msg)
      end
  end.

Definition add_pending (conn : nat) (c : Change) : M unit :=
  modify (fun w =>
    match pending_of conn (sessions w) with
    | Some p => set_sessions (set_pending conn (p ++ [c]) (sessions w)) w
    | None => w
    end).

Definition abort (conn : nat) : M unit :=
  modify (fun w => set_sessions (set_pending conn [] (sessions w)) w).

(** [conn.commit()] *)
Definition commit (conn : nat) : M unit :=
  w <- get_world ;;
  match pending_of conn (sessions w) with
  | None => raise (PgError InterfaceError "connection already closed")
  | Some p =>
      o <- next_outcome ;;
      match o with
      | Succeeds =>
          modify (fun w =>
            set_sessions (set_pending conn [] (sessions w))
              (set_tables (apply_changes (tables w) p) w))
      | Raises msg =>
          abort conn ;;
          raise (PgError OperationalError msg)
      end
  end.

(** [conn.close()]: uncommitted work is rolled back. *)
Definition close (conn : nat) : M unit :=
  modify (fun w => set_sessions (drop_session conn (sessions w)) w).

(** ** The SQL statements of app.py *)

(** Insertion sort by decreasing key: ORDER BY ... DESC. *)
Fixpoint insert_desc {A} (key : A -> Z) (x : A) (l : list A) : list A :=
  match l with
  | [] => [x]
  | y :: rest =>
      if key y <? key x then x :: y :: rest else y :: insert_desc key x rest
  end.

Fixpoint order_by_desc {A} (key : A -> Z) (l : list A) : list A :=
  match l with
  | [] => []
  | x :: rest => insert_desc key x (order_by_desc key rest)
  end.

(** SELECT * FROM users ORDER BY created_at DESC; fetchall() *)
Definition select_users_ordered (conn : nat) : M (list User) :=
  t <- server_call conn ;;
  ret (order_by_desc created_at (users t)).

Definition nextval_users : M Z :=
  fun w => (Return (users_id_seq w), set_users_id_seq (users_id_seq w + 1) w).

Definition nextval_app_logs : M Z :=
  fun w => (Return (app_logs_id_seq w), set_app_logs_id_seq (app_logs_id_seq w + 1) w).

(** INSERT INTO users (name, email) VALUES (%s, %s) RETURNING *; fetchone().
    The values are fitted to their columns first; then the row takes its id
    from the sequence (which is not given back when the insert fails) and
    the two unique indexes are checked. *)
Definition insert_user (conn : nat) (new_name new_email : string) : M User :=
  t <- server_call conn ;;
  match varchar 100 new_name, varchar 100 new_email with
  | Some name', Some email' =>
      new_id <- nextval_users ;;
      ts <- datetime_now ;;
      if existsb (fun u => (id u =? new_id) || String.eqb (email u) email') (users t)
      then abort conn ;;
           raise (PgError IntegrityError "duplicate key value violates unique constraint")
      else let row := mkUser new_id name' email' ts in
           add_pending conn (InsertUser row) ;;
           ret row
  | _, _ =>
      abort conn ;;
      raise (PgError DataError "value too long for type character varying(100)")
  end.

(** SELECT * FROM users WHERE id = %s; fetchone() *)
Definition select_user_by_id (conn : nat) (user_id : Z) : M (option User) :=
  t <- server_call conn ;;
  ret (find (fun u => id u =? user_id) (users t)).

(** DELETE FROM users WHERE id = %s; the answer is cursor.rowcount. *)
Definition delete_user_by_id (conn : nat) (user_id : Z) : M Z :=
  t <- server_call conn ;;
  add_pending conn (DeleteUser user_id) ;;
  ret (Z.of_nat (List.length (filter (fun u => id u =? user_id) (users t)))).

(** SELECT COUNT( * ) as user_count FROM users; fetchone()['user_count'] *)
Definition select_user_count (conn : nat) : M Z :=
  t <- server_call conn ;;
  ret (Z.of_nat (List.length (users t))).

Definition same_request (r : LogRow) (c : RequestCount) : bool :=
  String.eqb (endpoint r) (rc_endpoint c)
  && String.eqb (method r) (rc_method c)
  && (status_code r =? rc_status_code c).

Fixpoint tally (r : LogRow) (groups : list RequestCount) : list RequestCount :=
  match groups with
  | [] => [mkRequestCount (endpoint r) (method r) (status_code r) 1]
  | c :: rest =>
      if same_request r c
      then mkRequestCount (rc_endpoint c) (rc_method c) (rc_status_code c) (rc_count c + 1) :: rest
      else c :: tally r rest
  end.

Definition group_by_request (rows : list LogRow) : list RequestCount :=
  fold_left (fun groups r => tally r groups) rows [].

(** SELECT endpoint, method, status_code, COUNT( * ) as count FROM app_logs
    WHERE timestamp > NOW() - INTERVAL '1 hour'
    GROUP BY endpoint, method, status_code ORDER BY count DESC; fetchall() *)
Definition select_recent_requests (conn : nat) : M (list RequestCount) :=
  t <- server_call conn ;;
  ts <- datetime_now ;;
  ret (order_by_desc rc_count
         (group_by_request (filter (fun r => ts - 3600 <? timestamp r) (app_logs t)))).

(** INSERT INTO app_logs (endpoint, method, status_code) VALUES (%s, %s, %s) *)
Definition insert_log (conn : nat) (endpoint method : string) (status_code : Z) : M unit :=
  server_call conn ;;
  match varchar 100 endpoint, varchar 10 method with
  | Some endpoint', Some method' =>
      new_id <- nextval_app_logs ;;
      ts <- datetime_now ;;
      add_pending conn (InsertLog (mkLogRow new_id endpoint' method' status_code ts))
  | _, _ =>
      abort conn ;;
      raise (PgError DataError "value too long for type character varying")
  end.

(** SELECT version(); fetchone()[0] *)
Definition select_version (conn : nat) : M string :=
  server_call conn ;;
  w <- get_world ;;
  ret (server_version w).

(** SELECT current_database(); fetchone()[0]: the database the connection
    was opened on, DB_CONFIG['database']. *)
Definition select_current_database (conn : nat) : M string :=
  server_call conn ;;
  w <- get_world ;;
  ret (getenv (environ w) "DB_NAME" "appdb").

(** ** app.py *)

Definition get_db_connection : M (option nat) :=
  try_except
    (conn <- connect ;;
     ret (Some conn))
    (except_psycopg2_Error (fun e =>
       logger_error ("Database connection error: " ++ e) ;;
       ret None)).

Definition log_request (endpoint method : string) (status_code : Z) : M unit :=
  try_except
    (conn <- get_db_connection ;;
     match conn with
     | Some conn =>
         insert_log conn endpoint method status_code ;;
         commit conn ;;
         close conn
     | None => ret tt
     end)
    (except_psycopg2_Error (fun e =>
       logger_error ("Logging error: " ++ e))).

Definition root : M HealthResponse.t :=
  log_request "/" "GET" 200 ;;
  ts <- datetime_now ;;
  conn <- get_db_connection ;;
  ret (HealthResponse.mk "healthy" "FastAPI app is running" ts
         (match conn with Some _ => "connected" | None => "disconnected" end)).

Definition health_check : M HealthResponse.t :=
  log_request "/health" "GET" 200 ;;
  ts <- datetime_now ;;
  conn <- get_db_connection ;;
  ret (HealthResponse.mk "healthy" "FastAPI app is running" ts
         (match conn with Some _ => "connected" | None => "disconnected" end)).

Definition get_users : M UsersResponse.t :=
  try_except
    (conn <- get_db_connection ;;
     match conn with
     | None =>
         log_request "/users" "GET" 500 ;;
         raise (HTTPException 500 "Database connection failed")
     | Some conn =>
         users <- select_users_ordered conn ;;
         close conn ;;
         log_request "/users" "GET" 200 ;;
         ret (UsersResponse.mk users (Z.of_nat (List.length users)))
     end)
    (except_psycopg2_Error (fun e =>
       logger_error ("Error fetching users: " ++ e) ;;
       log_request "/users" "GET" 500 ;;
       raise (HTTPException 500 "Database error"))).

Definition create_user (user_data : UserCreate) : M UserResponse.t :=
  try_except
    (conn <- get_db_connection ;;
     match conn with
     | None =>
         log_request "/users" "POST" 500 ;;
         raise (HTTPException 500 "Database connection failed")
     | Some conn =>
         user <- insert_user conn (uc_name user_data) (uc_email user_data) ;;
         commit conn ;;
         close conn ;;
         log_request "/users" "POST" 201 ;;
         ret (UserResponse.mk user)
     end)
    (fun e =>
       match e with
       | PgError IntegrityError _ =>
           Some (log_request "/users" "POST" 409 ;;
                 raise (HTTPException 409 "Email already exists"))
       | PgError _ e =>
           Some (logger_error ("Error creating user: " ++ e) ;;
                 log_request "/users" "POST" 500 ;;
                 raise (HTTPException 500 "Database error"))
       | HTTPException _ _ => None
       end).

Definition get_user (user_id : Z) : M UserResponse.t :=
  try_except
    (conn <- get_db_connection ;;
     match conn with
     | None =>
         log_request ("/users/" ++ str_of_int user_id) "GET" 500 ;;
         raise (HTTPException 500 "Database connection failed")
     | Some conn =>
         user <- select_user_by_id conn user_id ;;
         close conn ;;
         match user with
         | Some user =>
             log_request ("/users/" ++ str_of_int user_id) "GET" 200 ;;
             ret (UserResponse.mk user)
         | None =>
             log_request ("/users/" ++ str_of_int user_id) "GET" 404 ;;
             raise (HTTPException 404 "User not found")
         end
     end)
    (except_psycopg2_Error (fun e =>
       logger_error ("Error fetching user: " ++ e) ;;
       log_request ("/users/" ++ str_of_int user_id) "GET" 500 ;;
       raise (HTTPException 500 "Database error"))).

Definition delete_user (user_id : Z) : M MessageResponse.t :=
  try_except
    (conn <- get_db_connection ;;
     match conn with
     | None =>
         log_request ("/users/" ++ str_of_int user_id) "DELETE" 500 ;;
         raise (HTTPException 500 "Database connection failed")
     | Some conn =>
         rowcount <- delete_user_by_id conn user_id ;;
         if 0 <? rowcount
         then commit conn ;;
              close conn ;;
              log_request ("/users/" ++ str_of_int user_id) "DELETE" 200 ;;
              ret (MessageResponse.mk "User deleted successfully")
         else close conn ;;
              log_request ("/users/" ++ str_of_int user_id) "DELETE" 404 ;;
              raise (HTTPException 404 "User not found")
     end)
    (except_psycopg2_Error (fun e =>
       logger_error ("Error deleting user: " ++ e) ;;
       log_request ("/users/" ++ str_of_int user_id) "DELETE" 500 ;;
       raise (HTTPException 500 "Database error"))).

Definition get_stats : M StatsResponse.t :=
  try_except
    (conn <- get_db_connection ;;
     match conn with
     | None => raise (HTTPException 500 "Database connection failed")
     | Some conn =>
         user_count <- select_user_count conn ;;
         recent_requests <- select_recent_requests conn ;;
         close conn ;;
         log_request "/stats" "GET" 200 ;;
         ret (StatsResponse.mk user_count recent_requests "connected")
     end)
    (except_psycopg2_Error (fun e =>
       logger_error ("Error fetching stats: " ++ e) ;;
       log_request "/stats" "GET" 500 ;;
       raise (HTTPException 500 "Database error"))).

(** {k: v if k != 'password' else '***' for k, v in DB_CONFIG.items()} *)
Definition redacted (cfg : list (string * string)) : list (string * string) :=
  map (fun kv => (fst kv, if negb (String.eqb (fst kv) "password") then snd kv else "***")) cfg.

Definition redacted_config : M (list (string * string)) :=
  w <- get_world ;;
  ret (redacted (DB_CONFIG (environ w))).

Definition test_database : M DatabaseTestResponse.t :=
  try_except
    (conn <- get_db_connection ;;
     match conn with
     | None =>
         cfg <- redacted_config ;;
         ret (DatabaseTestResponse.mk "error" "Cannot connect to database" None None cfg)
     | Some conn =>
         version <- select_version conn ;;
         database <- select_current_database conn ;;
         close conn ;;
         cfg <- redacted_config ;;
         ret (DatabaseTestResponse.mk "success" "Database connection successful"
                (Some version) (Some database) cfg)
     end)
    (except_psycopg2_Error (fun e =>
       logger_error ("Database test error: " ++ e) ;;
       cfg <- redacted_config ;;
       ret (DatabaseTestResponse.mk "error" ("Database error: " ++ e) None None cfg))).

(** ** FastAPI: from handler outcome to HTTP response *)

Inductive Reply (A : Type) :=
| Json (status_code : Z) (body : A)              (* the response model *)
| ErrorDetail (status_code : Z) (detail : string) (* an HTTPException *)
| Unprocessable                                   (* 422, request validation *)
| ServerError (cls : PgClass) (msg : string).     (* any other exception *)

Arguments Json {A} status_code body.
Arguments ErrorDetail {A} status_code detail.
Arguments Unprocessable {A}.
Arguments ServerError {A} cls msg.

Definition reply_status {A} (r : Reply A) : Z :=
  match r with
  | Json s _ => s
  | ErrorDetail s _ => s
  | Unprocessable => 422
  | ServerError _ _ => 500
  end.

(** Run a handler whose decorator declares [success] as status code. *)
Definition serve {A} (success : Z) (handler : M A) : World -> Reply A * World :=
  fun w =>
    match handler w with
    | (Return body, w') => (Json success body, w')
    | (Raise (HTTPException s d), w') => (ErrorDetail s d, w')
    | (Raise (PgError cls msg), w') => (ServerError cls msg, w')
    end.

Definition GET_root := serve 200 root.
Definition GET_health := serve 200 health_check.
Definition GET_users := serve 200 get_users.
Definition GET_user (user_id : Z) := serve 200 (get_user user_id).
Definition DELETE_user (user_id : Z) := serve 200 (delete_user user_id).
Definition GET_stats := serve 200 get_stats.
Definition GET_db_test := serve 200 test_database.

Section RequestValidation.

(** The check behind pydantic's EmailStr is outside the repository: it
    answers the normalised address, or nothing for a string that is not a
    well-formed address. *)
Variable validate_email : string -> option string.

(** Validation of a JSON object with string members against UserCreate. *)
Definition parse_UserCreate (body : list (string * string)) : option UserCreate :=
  match lookup "name" body, lookup "email" body with
  | Some n, Some e =>
      match validate_email e with
      | Some e' => Some (mkUserCreate n e')
      | None => None
      end
  | _, _ => None
  end.

(** POST /users: the body is validated before [create_user] is entered. *)
Definition POST_users (body : list (string * string)) : World -> Reply UserResponse.t * World :=
  fun w =>
    match parse_UserCreate body with
    | Some user_data => serve 201 (create_user user_data) w
    | None => (Unprocessable, w)
    end.

End RequestValidation.

(** ** Worlds *)

(** The store right after [init_database] has created both tables in an
    empty database, with no connection open and a store that answers. *)
Definition fresh : World :=
  mkWorld (mkTables [] []) 1 1 [] 0 [] 0 "PostgreSQL 15.4" [] [].

Definition with_faults (f : list Outcome) (w : World) : World := set_faults f w.

(** No fault is scheduled: every coming server call succeeds. *)
Definition healthy (w : World) : Prop := faults w = [].

(** Connections that are open. *)
Definition open_connections (w : World) : list nat := map fst (sessions w).

(** The next [n] server calls succeed. *)
Fixpoint calm (n : nat) (f : list Outcome) : Prop :=
  match n, f with
  | O, _ => True
  | S _, [] => True
  | S n', Succeeds :: rest => calm n' rest
  | S _, Raises _ :: _ => False
  end.

Definition reachable (n : nat) (w : World) : Prop := calm n (faults w).

(** The next [n] server calls fail. *)
Fixpoint down (n : nat) (f : list Outcome) : Prop :=
  match n, f with
  | O, _ => True
  | S n', Raises _ :: rest => down n' rest
  | S _, _ => False
  end.

Definition unreachable (n : nat) (w : World) : Prop := down n (faults w).

(** Two fault scripts that fail at the same calls, whatever the texts. *)
Fixpoint same_shape (f1 f2 : list Outcome) : Prop :=
  match f1, f2 with
  | [], [] => True
  | Succeeds :: r1, Succeeds :: r2 => same_shape r1 r2
  | Raises _ :: r1, Raises _ :: r2 => same_shape r1 r2
  | _, _ => False
  end.

(** No character of the string is a space. *)
Fixpoint no_space (s : string) : bool :=
  match s with
  | EmptyString => true
  | String c rest => negb (Ascii.eqb c " "%char) && no_space rest
  end.

(** ** The audit log *)

(** [w'] has exactly one more row in app_logs than [w], and that row
    records [ep], [m] and [s]. *)
Definition appended (ep m : string) (s : Z) (w w' : World) : Prop :=
  exists row,
    app_logs (tables w') = app_logs (tables w) ++ [row]
    /\ endpoint row = ep /\ method row = m /\ status_code row = s.

(** Nothing was added to app_logs, or one row recording [ep], [m], [s]. *)
Definition audited (ep m : string) (s : Z) (w w' : World) : Prop :=
  app_logs (tables w') = app_logs (tables w) \/ appended ep m s w w'.

(** Rows from the newest to the oldest. *)
Definition newest_first (l : list User) : Prop :=
  StronglySorted (fun a b => created_at b <= created_at a) l.

(** No stored user has this id. *)
Definition missing (user_id : Z) (w : World) : Prop :=
  forall u, In u (users (tables w)) -> id u <> user_id.

(** A store with two users, the older one inserted first. *)
Definition sample : World :=
  mkWorld
    (mkTables [mkUser 1 "Ann" "ann@x.com" 10; mkUser 2 "Bob" "bob@x.com" 20] [])
    3 1 [] 0 [] 30 "PostgreSQL 15.4" [] [].

(** ** Round trip *)

(** The reply to a POST /users whose body has passed validation. *)
Definition POST_reply (n e : string) : World -> Reply UserResponse.t * World :=
  serve 201 (create_user (mkUserCreate n e)).



(** Python's [c * n]. *)
Fixpoint times (c : ascii) (n : nat) : string :=
  match n with
  | O => EmptyString
  | S n' => String c (times c n')
  end.


(** Every stored id was issued by the sequence of users.id. *)
Definition ids_issued (w : World) : Prop :=
  forall u, In u (users (tables w)) -> id u < users_id_seq w.

(** Some stored user has this email. *)
Definition taken (e : string) (w : World) : Prop :=
  exists u, In u (users (tables w)) /\ email u = e.

(** ** The routes of the application *)

(** A request that has reached its handler: for POST /users the body has
    passed validation. *)
Inductive Route :=
| R_root
| R_health_check
| R_get_users
| R_create_user (n e : string)
| R_get_user (user_id : Z)
| R_delete_user (user_id : Z)
| R_get_stats
| R_test_database.

Definition status_and_world {A} (x : Reply A * World) : Z * World :=
  (reply_status (fst x), snd x).

(** The status code of the response to a request, and the world after it. *)
Definition handle (r : Route) (w : World) : Z * World :=
  match r with
  | R_root => status_and_world (GET_root w)
  | R_health_check => status_and_world (GET_health w)
  | R_get_users => status_and_world (GET_users w)
  | R_create_user n e => status_and_world (POST_reply n e w)
  | R_get_user user_id => status_and_world (GET_user user_id w)
  | R_delete_user user_id => status_and_world (DELETE_user user_id w)
  | R_get_stats => status_and_world (GET_stats w)
  | R_test_database => status_and_world (GET_db_test w)
  end.

(** The path and the method of a route, as its handler writes them in its
    calls of [log_request] (the handler of /db-test has no such call). *)
Definition route_endpoint (r : Route) : string :=
  match r with
  | R_root => "/"
  | R_health_check => "/health"
  | R_get_users => "/users"
  | R_create_user _ _ => "/users"
  | R_get_user user_id => "/users/" ++ str_of_int user_id
  | R_delete_user user_id => "/users/" ++ str_of_int user_id
  | R_get_stats => "/stats"
  | R_test_database => "/db-test"
  end.

Definition route_method (r : Route) : string :=
  match r with
  | R_create_user _ _ => "POST"
  | R_delete_user _ => "DELETE"
  | _ => "GET"
  end.


(** The process environment with DB_PASSWORD set to [p]. *)
Definition with_password (p : string) (w : World) : World :=
  set_environ (("DB_PASSWORD", p) :: environ w) w.

(** A stand-in for the email check, used to run examples: an address has
    an at sign. *)
Fixpoint has_at (s : string) : bool :=
  match s with
  | EmptyString => false
  | String c rest => Ascii.eqb c "@"%char || has_at rest
  end.

Definition example_validate_email (s : string) : option string :=
  if has_at s then Some s else None.

(** ** Responses as the client sees them *)

Inductive Body :=
| B_health (b : HealthResponse.t)
| B_users (b : UsersResponse.t)
| B_user (b : UserResponse.t)
| B_message (b : MessageResponse.t)
| B_stats (b : StatsResponse.t)
| B_db_test (b : DatabaseTestResponse.t).

Definition map_reply {A B} (f : A -> B) (r : Reply A) : Reply B :=
  match r with
  | Json s b => Json s (f b)
  | ErrorDetail s d => ErrorDetail s d
  | Unprocessable => Unprocessable
  | ServerError c m => ServerError c m
  end.

(** The response to a request. *)
Definition reply_of (r : Route) (w : World) : Reply Body :=
  match r with
  | R_root => map_reply B_health (fst (GET_root w))
  | R_health_check => map_reply B_health (fst (GET_health w))
  | R_get_users => map_reply B_users (fst (GET_users w))
  | R_create_user n e => map_reply B_user (fst (POST_reply n e w))
  | R_get_user user_id => map_reply B_user (fst (GET_user user_id w))
  | R_delete_user user_id => map_reply B_message (fst (DELETE_user user_id w))
  | R_get_stats => map_reply B_stats (fst (GET_stats w))
  | R_test_database => map_reply B_db_test (fst (GET_db_test w))
  end.



(** ** Stores that the application can produce *)

(** Rows whose ids were issued by a sequence that now stands at [seq] and
    whose values fit their columns. *)
Definition rows_ok (l : list User) (seq : Z) : Prop :=
  forall u, In u l ->
    id u < seq
    /\ (String.length (name u) <= 100)%nat
    /\ (String.length (email u) <= 100)%nat.

Definition store_ok (w : World) : Prop :=
  rows_ok (users (tables w)) (users_id_seq w).

(** The worlds that the application reaches from a users table without
    rows: between two requests the environment may schedule faults and move
    the clock. *)
Inductive served : World -> Prop :=
| served_start (w : World) :
    users (tables w) = [] -> served w
| served_request (r : Route) (w : World) :
    served w -> served (snd (handle r w))
| served_faults (f : list Outcome) (w : World) :
    served w -> served (set_faults f w)
| served_clock (t : Z) (w : World) :
    served w -> served (mkWorld (tables w) (users_id_seq w) (app_logs_id_seq w)
                          (sessions w) (next_conn w) (faults w) t
                          (server_version w) (environ w) (logger w)).

(** Every open connection has a handle that was already issued. *)
Definition handles_issued (w : World) : Prop :=
  forall c, In c (open_connections w) -> (c < next_conn w)%nat.

(** The handlers that close their connection on the paths where nothing
    raises. *)
Definition closing_route (r : Route) : bool :=
  match r with
  | R_get_users | R_get_user _ | R_delete_user _ | R_get_stats | R_test_database => true
  | _ => false
  end.

(** ** Startup: init_database and lifespan *)

(** [logger.info] and [logger.warning]: logging.basicConfig(level=INFO)
    lets both through, to the same sink as [logger.error]. *)
Definition logger_info (line : string) : M unit :=
  modify (fun w => set_logger (logger w ++ [line]) w).

Definition logger_warning (line : string) : M unit :=
  modify (fun w => set_logger (logger w ++ [line]) w).

(** CREATE TABLE IF NOT EXISTS users (...): a table that exists is left as
    it is, and a world has both tables, one without rows standing for one
    that has just been created. *)
Definition create_table_users (conn : nat) : M unit :=
  server_call conn ;;
  ret tt.

(** CREATE TABLE IF NOT EXISTS app_logs (...) *)
Definition create_table_app_logs (conn : nat) : M unit :=
  server_call conn ;;
  ret tt.

Definition init_database : M bool :=
  try_except
    (conn <- get_db_connection ;;
     match conn with
     | None =>
         logger_error "Cannot initialize database - no connection" ;;
         ret false
     | Some conn =>
         create_table_users conn ;;
         create_table_app_logs conn ;;
         commit conn ;;
         close conn ;;
         logger_info "Database initialized successfully" ;;
         ret true
     end)
    (except_psycopg2_Error (fun e =>
       logger_error ("Database initialization error: " ++ e) ;;
       ret false)).

(** [d[k]] for a key that [d] has. *)
Definition item (d : list (string * string)) (k : string) : string :=
  match lookup k d with
  | Some v => v
  | None => EmptyString
  end.

(** [lifespan] up to its [yield]. *)
Definition lifespan_startup : M unit :=
  logger_info "Starting FastAPI application..." ;;
  w <- get_world ;;
  let cfg := DB_CONFIG (environ w) in
  logger_info ("Database config: " ++ item cfg "host" ++ ":" ++ item cfg "port"
               ++ "/" ++ item cfg "database") ;;
  ok <- init_database ;;
  if ok
  then logger_info "Database initialized successfully"
  else logger_warning "Database initialization failed".

(** [lifespan] after its [yield]. *)
Definition lifespan_shutdown : M unit :=
  logger_info "Shutting down FastAPI application...".

(** ** Runs of several requests *)

(** The requests of [rs] served one after the other: the status codes of
    the responses, and the world after the last one. *)
Fixpoint serve_all (rs : list Route) (w : World) : list Z * World :=
  match rs with
  | [] => ([], w)
  | r :: rest =>
      let (s, w1) := handle r w in
      let (ss, w2) := serve_all rest w1 in
      (s :: ss, w2)
  end.

(** What [log_request] is asked to record for a request answered [s]. *)
Definition log_entry_of (r : Route) (s : Z) : string * string * Z :=
  (route_endpoint r, route_method r, s).

Definition log_entry (row : LogRow) : string * string * Z :=
  (endpoint row, method row, status_code row).

(** The handlers that only read the users. *)
Definition read_only (r : Route) : bool :=
  match r with
  | R_create_user _ _ | R_delete_user _ => false
  | _ => true
  end.


(** Some stored user has this id. *)
Definition stored (user_id : Z) (w : World) : Prop :=
  exists u, In u (users (tables w)) /\ id u = user_id.

(** The rows of app_logs that /stats counts at time [ts]. *)
Definition recent (ts : Z) (rows : list LogRow) : list LogRow :=
  filter (fun r => ts - 3600 <? timestamp r) rows.

(** The group of a row of app_logs, and of a row of the answer of /stats. *)
Definition request_key (c : RequestCount) : string * string * Z :=
  (rc_endpoint c, rc_method c, rc_status_code c).

(** No two stored users share an id, and no two share an email. *)
Definition distinct_users (w : World) : Prop :=
  NoDup (map id (users (tables w))) /\ NoDup (map email (users (tables w))).

Definition key_eqb (a b : string * string * Z) : bool :=
  String.eqb (fst (fst a)) (fst (fst b))
  && String.eqb (snd (fst a)) (snd (fst b))
  && (snd a =? snd b).

(** The sum of the counts of the groups of [g] that have key [k]. *)
Fixpoint weight (k : string * string * Z) (g : list RequestCount) : Z :=
  match g with
  | [] => 0
  | c :: rest =>
      (if key_eqb (request_key c) k then rc_count c else 0) + weight k rest
  end.

(** The number of rows with key [k]. *)
Definition occurrences (k : string * string * Z) (rows : list LogRow) : Z :=
  Z.of_nat (List.length (filter (fun r => key_eqb (log_entry r) k) rows)).

(** The sum of the counts of the aggregates. *)
Definition total (g : list RequestCount) : Z :=
  fold_right (fun c acc => rc_count c + acc) 0 g.

(** Two worlds that differ at most in the process environment. *)
Definition same_but_environ (w1 w2 : World) : Prop :=
  tables w1 = tables w2
  /\ users_id_seq w1 = users_id_seq w2
  /\ app_logs_id_seq w1 = app_logs_id_seq w2
  /\ sessions w1 = sessions w2
  /\ next_conn w1 = next_conn w2
  /\ faults w1 = faults w2
  /\ now w1 = now w2
  /\ server_version w1 = server_version w2
  /\ logger w1 = logger w2.

(** The handlers that call [log_request]. *)
Definition writes_log (r : Route) : bool :=
  match r with
  | R_test_database => false
  | _ => true
  end.

(** What the requests of a run ask [log_request] to record: the endpoint,
    the method and the status code of each response, in the order of the
    requests. *)
Definition entries_of (rs : list Route) (statuses : list Z) : list (string * string * Z) :=
  map (fun rs => log_entry_of (fst rs) (snd rs))
      (filter (fun rs => writes_log (fst rs)) (combine rs statuses)).

(** The status codes that a handler can answer with. *)
Definition statuses_of (r : Route) : list Z :=
  match r with
  | R_root | R_health_check | R_test_database => [200]
  | R_get_users | R_get_stats => [200; 500]
  | R_create_user _ _ => [201; 409; 500]
  | R_get_user _ | R_delete_user _ => [200; 404; 500]
  end.

(** * Properties *)

(** ** Symbolic execution *)

Ltac unfold_driver :=
  unfold get_db_connection, connect, insert_log, insert_user, select_users_ordered,
    select_user_by_id, delete_user_by_id, select_user_count, select_recent_requests,
    select_version, select_current_database, commit, close, abort, add_pending,
    server_call, nextval_users, nextval_app_logs, datetime_now, logger_error,
    next_outcome, except_psycopg2_Error, redacted_config,
    try_except, bind, ret, raise, get_world, modify,
    set_tables, set_users_id_seq, set_app_logs_id_seq, set_sessions, set_next_conn,
    set_faults, set_environ, set_logger in *.

Ltac sim :=
  repeat progress (
    cbn -[String.append varchar str_of_int log_request order_by_desc group_by_request
          Z.add Z.sub Z.ltb Z.eqb Z.of_nat Nat.eqb existsb find filter
          DB_CONFIG redacted getenv lookup] in *;
    rewrite ?Nat.eqb_refl in *).

Ltac split_data :=
  match goal with
  | |- context [match varchar ?n ?s with Some _ => _ | None => _ end] =>
      destruct (varchar n s) eqn:?
  | |- context [if existsb ?p ?l then _ else _] =>
      destruct (existsb p l) eqn:?
  | |- context [match find ?p ?l with Some _ => _ | None => _ end] =>
      destruct (find p l) eqn:?
  | |- context [if ?a <? ?b then _ else _] =>
      destruct (a <? b) eqn:?
  end.

Ltac split_path :=
  first
    [ match goal with
      | |- context [match ?f with [] => _ | _ :: _ => _ end] =>
          is_var f; destruct f as [|[|?] f]
      end
    | split_data ].

Ltac paths := sim; repeat (split_path; sim).

(** One call of [log_request], by a lemma [lem] that gives the world after
    it; [side] proves what [lem] asks of the endpoint and the method. *)
Ltac spec_step lem side :=
  match goal with
  | |- context [log_request ?ep ?m ?s ?w] =>
      let w' := fresh "w'" in
      let E := fresh "E" in
      let L := fresh "L" in
      destruct (lem ep m s w) as (w' & E & L);
      [ side .. | rewrite E; clear E; sim ]
  end.

Ltac spec_paths lem side :=
  unfold_driver; paths;
  repeat (spec_step lem side;
          try match goal with
              | wv : World |- context [faults ?x] => constr_eq wv x; destruct wv
              end;
          paths).


Ltac rel_done R :=
  unfold R; sim; repeat split; first [reflexivity | assumption].

Ltac open_rel R :=
  match goal with
  | Hal : R ?wa ?wb |- _ =>
      is_var wa; is_var wb;
      destruct wa, wb; unfold R in Hal; sim;
      destruct Hal as (? & ? & ? & ? & ? & ? & ? & ? & ?); subst
  end.

(** ** Strings that fit their column *)

Lemma varchar_fits (n : nat) (s : string) :
  (String.length s <= n)%nat -> varchar n s = Some s.
Proof.
  intros H. unfold varchar.
  destruct (Nat.leb_spec (String.length s) n); [reflexivity | lia].
Qed.

Lemma substring_length (s : string) :
  forall n m, (n + m <= String.length s)%nat -> String.length (substring n m s) = m.
Proof.
  induction s as [|c s IH]; intros n m H; simpl in *.
  - destruct n, m; simpl in *; try reflexivity; lia.
  - destruct n as [|n].
    + destruct m as [|m]; simpl; [reflexivity|]. f_equal. apply IH. lia.
    + apply IH. lia.
Qed.

Lemma substring_no_space (s : string) :
  forall n m, no_space s = true -> no_space (substring n m s) = true.
Proof.
  induction s as [|c s IH]; intros n m H; simpl in *.
  - destruct n, m; reflexivity.
  - apply andb_true_iff in H as [Hc Hs]. destruct n as [|n].
    + destruct m as [|m]; simpl; [reflexivity|].
      rewrite Hc. simpl. apply IH, Hs.
    + apply IH, Hs.
Qed.

Lemma all_spaces_no_space (s : string) :
  all_spaces s = true -> no_space s = true -> s = EmptyString.
Proof.
  destruct s as [|c s]; simpl; [reflexivity|].
  intros H1 H2. apply andb_true_iff in H1 as [H1 _].
  apply andb_true_iff in H2 as [H2 _]. rewrite H1 in H2. discriminate.
Qed.

(** A value without spaces is stored whole or not at all. *)
Lemma varchar_no_space (n : nat) (s s' : string) :
  no_space s = true -> varchar n s = Some s' -> s' = s.
Proof.
  unfold varchar. intros Hs H.
  destruct (Nat.leb_spec (String.length s) n) as [Hle|Hlt].
  - congruence.
  - destruct (all_spaces (substring n (String.length s - n) s)) eqn:E; [|discriminate].
    apply all_spaces_no_space in E; [|apply substring_no_space, Hs].
    pose proof (substring_length s n (String.length s - n)) as L.
    rewrite E in L. simpl in L. lia.
Qed.

Lemma no_space_append (s t : string) :
  no_space (s ++ t)%string = no_space s && no_space t.
Proof.
  induction s as [|c s IH]; simpl; [reflexivity|].
  rewrite IH. apply andb_assoc.
Qed.

Lemma no_space_uint (d : Decimal.uint) : no_space (NilEmpty.string_of_uint d) = true.
Proof. induction d; simpl; auto. Qed.

Lemma no_space_str_of_int (z : Z) : no_space (str_of_int z) = true.
Proof.
  unfold str_of_int, NilZero.string_of_int, NilZero.string_of_uint.
  destruct (Z.to_int z) as [d|d]; destruct d; simpl; auto using no_space_uint.
Qed.

Lemma varchar_user_endpoint (user_id : Z) (s' : string) :
  varchar 100 ("/users/" ++ str_of_int user_id)%string = Some s' ->
  s' = ("/users/" ++ str_of_int user_id)%string.
Proof.
  apply varchar_no_space. rewrite no_space_append.
  rewrite no_space_str_of_int. reflexivity.
Qed.

(** ** log_request *)

(** [log_request] never raises, touches no user, and adds to app_logs either
    nothing or the one row it was asked to write, as the columns store it.
    With a store that answers and values that fit, the row is written. *)
Lemma log_request_spec (ep m : string) (s : Z) (w : World) :
  exists w',
    log_request ep m s w = (Return tt, w')
    /\ users (tables w') = users (tables w)
    /\ users_id_seq w' = users_id_seq w
    /\ now w' = now w
    /\ environ w' = environ w
    /\ server_version w' = server_version w
    /\ (app_logs (tables w') = app_logs (tables w)
        \/ exists row,
             app_logs (tables w') = app_logs (tables w) ++ [row]
             /\ varchar 100 ep = Some (endpoint row)
             /\ varchar 10 m = Some (method row)
             /\ status_code row = s)
    /\ (faults w = [] ->
        faults w' = []
        /\ forall ep' m', varchar 100 ep = Some ep' -> varchar 10 m = Some m' ->
             appended ep' m' s w w').
Proof.
  destruct w as [t us ls ss nc f n sv env lg].
  unfold log_request. unfold_driver. paths;
    (eexists; split; [reflexivity|]; sim;
     repeat (split; [reflexivity|]);
     split;
     [ first [ left; reflexivity
             | right; eexists; repeat split; (reflexivity || eassumption) ]
     | try discriminate ]).
  all: intros _; split; [reflexivity|]; intros ep' m' H1 H2; try discriminate.
  injection H1 as <-. injection H2 as <-.
  eexists; repeat split.
Qed.

Ltac log_step := spec_step log_request_spec idtac.

(** The same call of [log_request] in two runs whose worlds are related by
    [R], which [lem] shows to be kept by the call. *)
Ltac rel_step R lem :=
  match goal with
  | |- context [log_request ?ep ?m ?s ?wa] =>
      match goal with
      | |- context [log_request ep m s ?wb] =>
          tryif constr_eq wa wb then fail else
            (let Hal := fresh "Hal" in
             let wa' := fresh "wa" in
             let wb' := fresh "wb" in
             let Ea := fresh "Ea" in
             let Eb := fresh "Eb" in
             assert (Hal : R wa wb) by rel_done R;
             apply (lem ep m s) in Hal;
             destruct (log_request_spec ep m s wa) as (wa' & Ea & _);
             destruct (log_request_spec ep m s wb) as (wb' & Eb & _);
             rewrite Ea, Eb in *; clear Ea Eb; sim)
      end
  end.

(** ** ORDER BY ... DESC *)

Section OrderBy.

Context {A : Type} (key : A -> Z).

Lemma insert_desc_perm (x : A) (l : list A) :
  Permutation (x :: l) (insert_desc key x l).
Proof.
  induction l as [|y l IH]; simpl.
  - apply Permutation_refl.
  - destruct (key y <? key x).
    + apply Permutation_refl.
    + eapply perm_trans; [apply perm_swap|]. apply perm_skip, IH.
Qed.

Lemma order_by_desc_perm (l : list A) : Permutation l (order_by_desc key l).
Proof.
  induction l as [|x l IH]; simpl.
  - apply perm_nil.
  - eapply perm_trans; [apply perm_skip, IH|]. apply insert_desc_perm.
Qed.

Lemma insert_desc_sorted (x : A) (l : list A) :
  StronglySorted (fun a b => key b <= key a) l ->
  StronglySorted (fun a b => key b <= key a) (insert_desc key x l).
Proof.
  induction 1 as [|y l Hl IH Hy]; simpl.
  - constructor; constructor.
  - destruct (Z.ltb_spec (key y) (key x)) as [Hlt|Hge].
    + constructor.
      * constructor; assumption.
      * constructor; [lia|].
        eapply Forall_impl; [|exact Hy]. simpl. intros; lia.
    + constructor; [exact IH|].
      eapply Permutation_Forall; [apply insert_desc_perm|].
      constructor; [lia | exact Hy].
Qed.

Lemma order_by_desc_sorted (l : list A) :
  StronglySorted (fun a b => key b <= key a) (order_by_desc key l).
Proof.
  induction l as [|x l IH]; simpl.
  - constructor.
  - apply insert_desc_sorted, IH.
Qed.

End OrderBy.

(** ** GET /users *)

(** C4: with a store that answers the handler's connection and query,
    get_users returns the stored users from the newest to the oldest
    created_at, and count is the length of the returned sequence. *)
Theorem C4_get_users_newest_first (w : World) :
  reachable 2 w ->
  exists resp,
    fst (GET_users w) = Json 200 resp
    /\ newest_first (UsersResponse.users resp)
    /\ Permutation (users (tables w)) (UsersResponse.users resp)
    /\ UsersResponse.count resp = Z.of_nat (List.length (UsersResponse.users resp)).
Proof.
  destruct w as [t us ls ss nc f n sv env lg].
  unfold reachable, GET_users, serve, get_users. intros Hf. sim.
  destruct f as [|[|msg] [|[|msg'] f]]; try contradiction;
    unfold_driver; sim; log_step;
    (eexists; split; [reflexivity|]; sim;
     split; [apply order_by_desc_sorted|];
     split; [apply order_by_desc_perm | reflexivity]).
Qed.

Lemma C4_get_users_newest_first_witness :
  reachable 2 sample /\
  exists resp,
    fst (GET_users sample) = Json 200 resp
    /\ newest_first (UsersResponse.users resp)
    /\ Permutation (users (tables sample)) (UsersResponse.users resp)
    /\ UsersResponse.count resp = Z.of_nat (List.length (UsersResponse.users resp)).
Proof.
  split; [simpl; exact I | apply (C4_get_users_newest_first sample); simpl; exact I].
Defined.

(** ** GET and DELETE /users/{user_id} with an id that is not stored *)

Lemma find_missing (user_id : Z) (l : list User) :
  (forall u, In u l -> id u <> user_id) ->
  find (fun u => id u =? user_id) l = None.
Proof.
  induction l as [|u l IH]; simpl; intros H; [reflexivity|].
  destruct (Z.eqb_spec (id u) user_id) as [E|_].
  - exfalso. exact (H u (or_introl eq_refl) E).
  - apply IH. intros u' Hu'. apply H. right. exact Hu'.
Qed.

Lemma filter_missing (user_id : Z) (l : list User) :
  (forall u, In u l -> id u <> user_id) ->
  filter (fun u => id u =? user_id) l = [].
Proof.
  induction l as [|u l IH]; simpl; intros H; [reflexivity|].
  destruct (Z.eqb_spec (id u) user_id) as [E|_].
  - exfalso. exact (H u (or_introl eq_refl) E).
  - apply IH. intros u' Hu'. apply H. right. exact Hu'.
Qed.

(** C3: for an id that matches no stored user, with a store that answers the
    handler's connection and statement, get_user and delete_user both answer
    404 (so neither 200 nor 500), and delete_user leaves the users as they
    were. *)
Theorem C3_missing_id_is_404 (user_id : Z) (w : World) :
  missing user_id w ->
  reachable 2 w ->
  fst (GET_user user_id w) = ErrorDetail 404 "User not found"
  /\ fst (DELETE_user user_id w) = ErrorDetail 404 "User not found"
  /\ users (tables (snd (DELETE_user user_id w))) = users (tables w).
Proof.
  destruct w as [t us ls ss nc f n sv env lg].
  unfold missing, reachable, GET_user, DELETE_user, serve, get_user, delete_user.
  sim. intros Hm Hf.
  pose proof (find_missing user_id _ Hm) as Hfind.
  pose proof (filter_missing user_id _ Hm) as Hfilter.
  destruct f as [|[|msg] [|[|msg'] f]]; try contradiction;
    unfold_driver; sim; rewrite Hfind, Hfilter; sim;
    change (0 <? Z.of_nat 0) with false; sim;
    repeat log_step; intuition congruence.
Qed.

Lemma C3_missing_id_is_404_witness :
  fst (GET_user 7 sample) = ErrorDetail 404 "User not found"
  /\ fst (DELETE_user 7 sample) = ErrorDetail 404 "User not found"
  /\ users (tables (snd (DELETE_user 7 sample))) = users (tables sample).
Proof.
  apply (C3_missing_id_is_404 7 sample).
  - unfold missing. simpl. intros u [<-|[<-|[]]]; simpl; lia.
  - simpl. exact I.
Defined.

(** ** POST /users *)








(** A name whose excess over 100 characters is only spaces is stored cut to
    100 characters: create_user answers 201, and get_user gives back a name
    that is not the one supplied. *)
Lemma create_user_cuts_trailing_spaces :
  let supplied := (times "a" 100 ++ " ")%string in
  exists created w1 fetched,
    POST_reply supplied "ann@x.com" fresh = (Json 201 (UserResponse.mk created), w1)
    /\ fst (GET_user (id created) w1) = Json 200 (UserResponse.mk fetched)
    /\ name fetched = times "a" 100
    /\ name fetched <> supplied.
Proof.
  eexists; eexists; eexists.
  split; [vm_compute; reflexivity|].
  split; [vm_compute; reflexivity|].
  split; [reflexivity|]. vm_compute. discriminate.
Qed.






(** ** The audit log of a request *)

(** [log_request] on an endpoint and a method without spaces (as all of
    app.py's are): nothing is added, or one row with exactly these values;
    the row is added when the store answers and the values fit. *)
Lemma log_request_audit (ep m : string) (s : Z) (w : World) :
  no_space ep = true ->
  no_space m = true ->
  exists w',
    log_request ep m s w = (Return tt, w')
    /\ audited ep m s w w'
    /\ (healthy w ->
        (String.length ep <= 100)%nat -> (String.length m <= 10)%nat ->
        appended ep m s w w').
Proof.
  intros Hep Hm.
  destruct (log_request_spec ep m s w) as (w' & E & _ & _ & _ & _ & _ & Ha & Hh).
  exists w'. split; [exact E|]. split.
  - destruct Ha as [Ha | (row & Ha & He & Hme & Hs)]; [left; exact Ha|].
    right. exists row. split; [exact Ha|].
    apply (varchar_no_space _ _ _ Hep) in He.
    apply (varchar_no_space _ _ _ Hm) in Hme. auto.
  - intros H Lep Lm. destruct (Hh H) as [_ Hh'].
    apply Hh'; apply varchar_fits; assumption.
Qed.

Lemma no_space_user_endpoint (user_id : Z) :
  no_space ("/users/" ++ str_of_int user_id)%string = true.
Proof. rewrite no_space_append, no_space_str_of_int. reflexivity. Qed.

(** Every handler other than the one of /db-test adds to the audit log
    either nothing or one row that records its endpoint, its method and the
    status code of the response it produces; when no fault is scheduled and
    the endpoint fits its column, the row is added. *)
Lemma request_audit (r : Route) (w : World) :
  r <> R_test_database ->
  audited (route_endpoint r) (route_method r) (fst (handle r w)) w (snd (handle r w))
  /\ (healthy w ->
      (String.length (route_endpoint r) <= 100)%nat ->
      appended (route_endpoint r) (route_method r) (fst (handle r w)) w (snd (handle r w))).
Proof.
  intros Hr.
  destruct w as [t us ls ss nc f n0 sv env lg].
  destruct r; try contradiction; clear Hr;
    unfold handle, status_and_world, GET_root, GET_health, GET_users, POST_reply,
      GET_user, DELETE_user, GET_stats, serve,
      root, health_check, get_users, create_user, get_user, delete_user, get_stats,
      route_endpoint, route_method;
    spec_paths log_request_audit ltac:(first [reflexivity | apply no_space_user_endpoint]);
    unfold audited, appended, healthy in *; sim;
    repeat match goal with
           | L : _ /\ _ |- _ => destruct L
           end;
    (split;
     [ first [ assumption | left; reflexivity ]
     | let Hh := fresh "Hh" in
       let Hl := fresh "Hl" in
       intros Hh Hl;
       first [ discriminate Hh
             | match goal with
               | H : _ -> _ -> _ -> _ |- _ =>
                   apply H; [ first [reflexivity | assumption] | assumption | lia ]
               end ] ]).
Qed.




(** /stats that cannot open its connection answers 500 without a call of
    [log_request]: app_logs stays as it was even though the store answers
    again right after. *)
Lemma get_stats_connection_failure_unlogged (w : World) (msg : string) :
  faults w = [Raises msg] ->
  fst (handle R_get_stats w) = 500
  /\ app_logs (tables (snd (handle R_get_stats w))) = app_logs (tables w).
Proof.
  destruct w as [t us ls ss nc f n0 sv env lg]. sim. intros ->.
  unfold handle, status_and_world, GET_stats, serve, get_stats.
  unfold_driver. sim. split; reflexivity.
Qed.

(** /db-test never touches app_logs. *)
Lemma test_database_unlogged (w : World) :
  app_logs (tables (snd (handle R_test_database w))) = app_logs (tables w).
Proof.
  destruct w as [t us ls ss nc f n0 sv env lg].
  unfold handle, status_and_world, GET_db_test, serve, test_database.
  unfold_driver. paths; reflexivity.
Qed.


(** ** /health and /db-test *)

(** C6: whatever the store does, health_check and test_database return a
    normal response.  /health says "disconnected" when the store cannot be
    reached and "connected" when the probe connection opens; /db-test says
    "success" exactly when its connection and both queries succeed, and
    "error" otherwise. *)
Theorem C6_health_and_db_test_never_fail (w : World) :
  (exists resp,
     fst (GET_health w) = Json 200 resp
     /\ (HealthResponse.database resp = "connected"
         \/ HealthResponse.database resp = "disconnected")
     /\ (unreachable 2 w -> HealthResponse.database resp = "disconnected")
     /\ (healthy w -> HealthResponse.database resp = "connected"))
  /\ (exists resp,
        fst (GET_db_test w) = Json 200 resp
        /\ ((DatabaseTestResponse.status resp = "success" /\ reachable 3 w)
            \/ (DatabaseTestResponse.status resp = "error" /\ ~ reachable 3 w))
        /\ (unreachable 1 w ->
            DatabaseTestResponse.message resp = "Cannot connect to database")).
Proof.
  destruct w as [t us ls ss nc f n0 sv env lg]. split.
  - unfold GET_health, serve, health_check, log_request, unreachable, healthy.
    unfold_driver.
    paths; (eexists; split; [reflexivity|]; sim;
            split; [auto|]; split; intros H; first [contradiction | discriminate | reflexivity]).
  - unfold GET_db_test, serve, test_database, unreachable, reachable.
    unfold_driver.
    paths; (eexists; split; [reflexivity|]; sim;
            split; [ first [ left; split; [reflexivity | exact I]
                           | right; split; [reflexivity | intros H; exact H] ]
                   | intros H; first [contradiction | reflexivity] ]).
Qed.

Lemma C6_health_and_db_test_never_fail_witness :
  let w := with_faults [Raises "connection refused"; Raises "connection refused"] fresh in
  (exists resp,
     fst (GET_health w) = Json 200 resp
     /\ HealthResponse.database resp = "disconnected")
  /\ (exists resp,
        fst (GET_db_test w) = Json 200 resp
        /\ DatabaseTestResponse.status resp = "error").
Proof.
  intros w.
  destruct (C6_health_and_db_test_never_fail w)
    as [(h & Hh & _ & Hdown & _) (d & Hd & [[_ Hcalm] | [Herr _]] & _)].
  - contradiction.
  - split; [exists h; split; [exact Hh | apply Hdown; simpl; exact I]
           | exists d; split; [exact Hd | exact Herr]].
Defined.

(** ** The configuration echoed by /db-test *)

Lemma with_password_configured (p : string) (w : World) :
  lookup "password" (DB_CONFIG (environ (with_password p w))) = Some p.
Proof. reflexivity. Qed.

Lemma redacted_password (env : list (string * string)) :
  lookup "password" (redacted (DB_CONFIG env)) = Some "***".
Proof. reflexivity. Qed.

Lemma redacted_hides_password (p p' : string) (env : list (string * string)) :
  redacted (DB_CONFIG (("DB_PASSWORD", p) :: env))
  = redacted (DB_CONFIG (("DB_PASSWORD", p') :: env)).
Proof. reflexivity. Qed.

(** C7: for every configured password and every outcome of the connectivity
    test, config.password in the response of /db-test is the literal ***,
    and the whole response is the same for two passwords. *)
Theorem C7_password_redacted (w : World) (p p' : string) :
  (exists resp,
     fst (GET_db_test w) = Json 200 resp
     /\ lookup "password" (DatabaseTestResponse.config resp) = Some "***")
  /\ lookup "password" (DB_CONFIG (environ (with_password p w))) = Some p
  /\ fst (GET_db_test (with_password p w)) = fst (GET_db_test (with_password p' w)).
Proof.
  destruct w as [t us ls ss nc f n0 sv env lg].
  split; [|split; [reflexivity|]].
  - unfold GET_db_test, serve, test_database. unfold_driver.
    paths; (eexists; split; [reflexivity | apply redacted_password]).
  - unfold GET_db_test, serve, test_database, with_password. unfold_driver.
    paths; rewrite (redacted_hides_password p p' env); reflexivity.
Qed.

(** ** POST /users with a malformed email *)



(** ** Error bodies and the texts of driver exceptions *)

Lemma same_shape_refl (f : list Outcome) : same_shape f f.
Proof. induction f as [|[|msg] f IH]; simpl; auto. Qed.







(** ** Connections left open *)

Lemma drop_session_absent (c : nat) (ss : list (nat * list Change)) :
  (forall c', In c' (map fst ss) -> (c' < c)%nat) ->
  drop_session c ss = ss.
Proof.
  induction ss as [|[c' p] ss IH]; simpl; intros H; [reflexivity|].
  pose proof (H c' (or_introl eq_refl)) as Hlt.
  destruct (Nat.eqb_spec c' c); [lia|].
  f_equal. apply IH. intros; apply H; right; assumption.
Qed.

Lemma drop_session_absent_S (c : nat) (ss : list (nat * list Change)) :
  (forall c', In c' (map fst ss) -> (c' < c)%nat) ->
  drop_session (S c) ss = ss.
Proof.
  intros H. apply drop_session_absent. intros c' Hc'. specialize (H c' Hc'). lia.
Qed.

(** What does hold of C9: with a store that answers and an endpoint that
    fits its column, the handlers of GET /users, GET and DELETE
    /users/{user_id}, /stats and /db-test close every connection they
    open, on the found and on the not-found path. *)
Lemma closing_routes_close (r : Route) (w : World) :
  closing_route r = true ->
  healthy w ->
  handles_issued w ->
  (String.length (route_endpoint r) <= 100)%nat ->
  open_connections (snd (handle r w)) = open_connections w.
Proof.
  destruct w as [t us ls ss nc f n0 sv env lg].
  unfold healthy, handles_issued, open_connections.
  intros Hr Hf Hss Hlen.
  pose proof (varchar_fits 100 _ Hlen) as Hv. clear Hlen.
  sim. subst f.
  pose proof (drop_session_absent nc ss Hss) as D0.
  pose proof (drop_session_absent_S nc ss Hss) as D1.
  destruct r; try discriminate Hr; clear Hr;
    unfold handle, status_and_world, GET_users, GET_user, DELETE_user, GET_stats,
      GET_db_test, serve, get_users, get_user, delete_user, get_stats, test_database,
      log_request, route_endpoint in *;
    unfold_driver; sim;
    rewrite ?Hv;
    change (varchar 10 "GET") with (Some "GET");
    change (varchar 10 "DELETE") with (Some "DELETE");
    sim;
    repeat (split_data; sim);
    rewrite ?D0, ?D1; sim; rewrite ?D0, ?D1; reflexivity.
Qed.

(** With a store that answers, / and /health leave the connection of
    their probe open: one more connection is open after the request than
    before it. *)
Lemma probe_left_open (r : Route) (w : World) :
  r = R_root \/ r = R_health_check ->
  healthy w ->
  handles_issued w ->
  fst (handle r w) = 200
  /\ open_connections (snd (handle r w)) = S (next_conn w) :: open_connections w.
Proof.
  destruct w as [t us ls ss nc f n0 sv env lg].
  unfold healthy, handles_issued, open_connections. sim.
  intros Hr -> Hss.
  pose proof (drop_session_absent nc ss Hss) as D0.
  destruct Hr as [-> | ->];
    unfold handle, status_and_world, GET_root, GET_health, serve, root, health_check,
      log_request;
    unfold_driver; sim;
    change (varchar 100 "/") with (Some "/");
    change (varchar 100 "/health") with (Some "/health");
    change (varchar 10 "GET") with (Some "GET");
    sim; rewrite ?D0; split; reflexivity.
Qed.


(** ** An invariant of the store *)

Lemma varchar_length (n : nat) (s s' : string) :
  varchar n s = Some s' -> (String.length s' <= n)%nat.
Proof.
  unfold varchar. destruct (Nat.leb_spec (String.length s) n) as [Hle|Hlt].
  - intros [= <-]. exact Hle.
  - destruct (all_spaces _); [|discriminate]. intros [= <-].
    rewrite substring_length; lia.
Qed.

Lemma rows_ok_next (l : list User) (seq : Z) :
  rows_ok l seq -> rows_ok l (seq + 1).
Proof. intros H u Hu. destruct (H u Hu) as (? & ? & ?). repeat split; [lia| |]; assumption. Qed.

Lemma rows_ok_insert (l : list User) (seq ts : Z) (n e n' e' : string) :
  varchar 100 n = Some n' ->
  varchar 100 e = Some e' ->
  rows_ok l seq ->
  rows_ok (l ++ [mkUser seq n' e' ts]) (seq + 1).
Proof.
  intros Hn He H u Hu. apply in_app_or in Hu as [Hu | [<- | []]].
  - apply rows_ok_next in H. exact (H u Hu).
  - simpl. repeat split; [lia | eapply varchar_length; eassumption
                         | eapply varchar_length; eassumption].
Qed.

Lemma rows_ok_filter (p : User -> bool) (l : list User) (seq : Z) :
  rows_ok l seq -> rows_ok (filter p l) seq.
Proof. intros H u Hu. apply filter_In in Hu as [Hu _]. exact (H u Hu). Qed.

Ltac store_done :=
  unfold store_ok in *; sim;
  repeat match goal with
         | L : _ /\ _ |- _ => destruct L
         end;
  repeat match goal with
         | E : users _ = _ |- _ => rewrite E
         | E : users_id_seq _ = _ |- _ => rewrite E
         end;
  subst;
  eauto using rows_ok_next, rows_ok_insert, rows_ok_filter.

(** Every handler keeps the store well formed, whatever the store does
    during the request. *)
Lemma store_ok_preserved (r : Route) (w : World) :
  store_ok w -> store_ok (snd (handle r w)).
Proof.
  destruct w as [t us ls ss nc f n0 sv env lg].
  intros Hok.
  destruct r;
    unfold handle, status_and_world, GET_root, GET_health, GET_users, POST_reply,
      GET_user, DELETE_user, GET_stats, GET_db_test, serve,
      root, health_check, get_users, create_user, get_user, delete_user, get_stats,
      test_database;
    unfold_driver; sim.
  - log_step. destruct w' as [t' us' ls' ss' nc' f' n' sv' env' lg']. paths; store_done.
  - log_step. destruct w' as [t' us' ls' ss' nc' f' n' sv' env' lg']. paths; store_done.
  - paths; repeat log_step; store_done.
  - paths; repeat log_step; store_done.
  - paths; repeat log_step; store_done.
  - paths; repeat log_step; store_done.
  - paths; repeat log_step; store_done.
  - paths; store_done.
Qed.

Lemma served_store_ok (w : World) : served w -> store_ok w.
Proof.
  induction 1 as [w E|r w _ IH|f w _ IH|t w _ IH].
  - unfold store_ok. rewrite E. intros u [].
  - apply store_ok_preserved, IH.
  - exact IH.
  - exact IH.
Qed.

(** In a world that the application has reached, stored ids were issued by
    the sequence and a taken email has at most 100 characters. *)
Lemma served_ids_issued (w : World) : served w -> ids_issued w.
Proof. intros H u Hu. exact (proj1 (served_store_ok w H u Hu)). Qed.

Lemma served_taken_fits (e : string) (w : World) :
  served w -> taken e w -> (String.length e <= 100)%nat.
Proof.
  intros H (u & Hu & <-). exact (proj2 (proj2 (served_store_ok w H u Hu))).
Qed.

(** ** The scenario of the specification *)

Example scenario_ann :
  let body := [("name", "Ann"); ("email", "ann@x.com")] in
  let ann := mkUser 1 "Ann" "ann@x.com" 0 in
  let w1 := snd (POST_users example_validate_email body fresh) in
  let w2 := snd (GET_user 1 w1) in
  let w3 := snd (DELETE_user 1 w2) in
  fst (POST_users example_validate_email body fresh) = Json 201 (UserResponse.mk ann)
  /\ fst (GET_user 1 w1) = Json 200 (UserResponse.mk ann)
  /\ fst (DELETE_user 1 w2) = Json 200 (MessageResponse.mk "User deleted successfully")
  /\ fst (GET_user 1 w3) = ErrorDetail 404 "User not found"
  /\ map status_code (app_logs (tables (snd (GET_user 1 w3)))) = [201; 200; 200; 404].
Proof. repeat split. Qed.

(** * Further properties *)

Ltac unfold_startup :=
  unfold lifespan_startup, lifespan_shutdown, init_database, create_table_users,
    create_table_app_logs, logger_info, logger_warning in *.

(** ** get_db_connection *)

(** X1: get_db_connection never raises.  When the connection opens it
    returns its handle, a new one, and that connection is the only change
    to the world besides the consumed outcome; when it does not, it returns
    None, opens nothing and writes the text of the exception through
    logging. *)
Theorem X1_get_db_connection_total (w : World) :
  exists c w',
    get_db_connection w = (Return c, w')
    /\ tables w' = tables w
    /\ match c with
       | Some conn =>
           reachable 1 w
           /\ conn = next_conn w
           /\ sessions w' = (conn, []) :: sessions w
           /\ next_conn w' = S conn
           /\ logger w' = logger w
       | None =>
           sessions w' = sessions w
           /\ exists msg rest,
                faults w = Raises msg :: rest
                /\ logger w' = logger w ++ [("Database connection error: " ++ msg)%string]
       end.
Proof.
  destruct w as [t us ls ss nc f n0 sv env lg].
  unfold_driver. paths; do 2 eexists; (split; [reflexivity|]); sim;
    (split; [reflexivity|]); repeat split; eauto.
Qed.

(** ** log_request *)





(** ** init_database *)

(** X4: init_database never raises.  It returns True exactly when its
    connection, both CREATE TABLE statements and the commit succeed, and
    then its connection is closed again; in every case the rows of both
    tables are the ones that were there (IF NOT EXISTS).  When the
    connection cannot be opened it says so through logging. *)
Theorem X4_init_database (w : World) :
  exists ok w',
    init_database w = (Return ok, w')
    /\ tables w' = tables w
    /\ (ok = true <-> reachable 4 w)
    /\ (ok = true ->
        sessions w' = drop_session (next_conn w) (sessions w)
        /\ In "Database initialized successfully" (logger w'))
    /\ (unreachable 1 w ->
        sessions w' = sessions w
        /\ In "Cannot initialize database - no connection" (logger w')).
Proof.
  destruct w as [t us ls ss nc f n0 sv env lg].
  unfold reachable, unreachable. unfold_startup. unfold_driver.
  paths; do 2 eexists; (split; [reflexivity|]); sim;
    (split; [reflexivity|]);
    (split; [split; intros H; first [exact I | reflexivity | discriminate H | contradiction]|]);
    (split; intros H; first [discriminate H | contradiction | idtac]);
    try (split; [reflexivity|]); rewrite ?in_app_iff; simpl; auto.
Qed.

(** ** lifespan *)

(** X5: the startup part of lifespan never raises, whatever the store
    does: a failed initialisation only ends the startup log with a
    warning.  The rows of the tables are untouched, and no line written
    during startup depends on the configured password. *)
Theorem X5_lifespan_startup (w : World) (p p' : string) :
  (exists w',
     lifespan_startup w = (Return tt, w')
     /\ tables w' = tables w
     /\ ((reachable 4 w
          /\ last (logger w') "" = "Database initialized successfully")
         \/ (~ reachable 4 w
             /\ last (logger w') "" = "Database initialization failed")))
  /\ logger (snd (lifespan_startup (with_password p w)))
     = logger (snd (lifespan_startup (with_password p' w))).
Proof.
  destruct w as [t us ls ss nc f n0 sv env lg]. split.
  - unfold reachable. unfold_startup. unfold_driver.
    paths; (eexists; split; [reflexivity|]); sim; (split; [reflexivity|]);
      rewrite last_last; first [ left; split; [exact I | reflexivity]
                               | right; split; [intros H; exact H | reflexivity] ].
  - unfold with_password. unfold_startup. unfold_driver.
    paths; reflexivity.
Qed.

(** ** GET / *)

(** X6: root never fails: whatever the store does it answers 200 with
    status healthy, and its database field says connected exactly when the
    connection it opens to probe the store succeeds, which is the case when
    no fault is scheduled and is not when the next two server calls fail. *)
Theorem X6_root_never_fails (w : World) :
  exists resp,
    fst (GET_root w) = Json 200 resp
    /\ HealthResponse.status resp = "healthy"
    /\ HealthResponse.message resp = "FastAPI app is running"
    /\ HealthResponse.timestamp resp = now w
    /\ (HealthResponse.database resp = "connected"
        \/ HealthResponse.database resp = "disconnected")
    /\ (healthy w -> HealthResponse.database resp = "connected")
    /\ (unreachable 2 w -> HealthResponse.database resp = "disconnected").
Proof.
  destruct w as [t us ls ss nc f n0 sv env lg].
  unfold GET_root, serve, root, log_request, unreachable, healthy.
  unfold_driver.
  paths; (eexists; split; [reflexivity|]; sim;
          do 3 (split; [reflexivity|]);
          split; [auto|]; split; intros H; first [contradiction | discriminate | reflexivity]).
Qed.

(** ** What the handlers leave alone *)

Ltac unfold_routes :=
  unfold handle, reply_of, map_reply, status_and_world, GET_root, GET_health, GET_users,
    POST_reply, GET_user, DELETE_user, GET_stats, GET_db_test, serve,
    root, health_check, get_users, create_user, get_user, delete_user, get_stats,
    test_database in *.

(** X7: the handlers of /, /health, GET /users, GET /users/{user_id},
    /stats and /db-test never change the users nor the sequence of their
    ids, on any path and whatever the store does. *)
Theorem X7_read_only_handlers (r : Route) (w : World) :
  read_only r = true ->
  users (tables (snd (handle r w))) = users (tables w)
  /\ users_id_seq (snd (handle r w)) = users_id_seq w.
Proof.
  destruct w as [t us ls ss nc f n0 sv env lg].
  intros Hr.
  destruct r; try discriminate Hr; clear Hr; unfold_routes; unfold_driver; sim.
  - log_step. destruct w' as [t' us' ls' ss' nc' f' n' sv' env' lg'].
    paths; intuition congruence.
  - log_step. destruct w' as [t' us' ls' ss' nc' f' n' sv' env' lg'].
    paths; intuition congruence.
  - paths; repeat log_step; intuition congruence.
  - paths; repeat log_step; intuition congruence.
  - paths; repeat log_step; intuition congruence.
  - paths; split; reflexivity.
Qed.

Lemma X7_read_only_handlers_witness :
  users (tables (snd (handle R_get_stats sample))) = users (tables sample)
  /\ users_id_seq (snd (handle R_get_stats sample)) = users_id_seq sample.
Proof. apply (X7_read_only_handlers R_get_stats sample). reflexivity. Defined.

(** ** Store failures *)



(** ** GET and DELETE /users/{user_id} with an id that is stored *)

Lemma find_stored (user_id : Z) (l : list User) :
  (exists u, In u l /\ id u = user_id) ->
  exists u, find (fun u => id u =? user_id) l = Some u /\ In u l /\ id u = user_id.
Proof.
  intros (u & Hin & Hid).
  destruct (find (fun u => id u =? user_id) l) as [u'|] eqn:E.
  - exists u'. apply find_some in E as [Hin' Hid']. apply Z.eqb_eq in Hid'. auto.
  - exfalso. apply (find_none _ _ E) in Hin. rewrite Hid, Z.eqb_refl in Hin. discriminate.
Qed.

Lemma unique_by_id (l : list User) (u u' : User) :
  NoDup (map id l) -> In u l -> In u' l -> id u = id u' -> u = u'.
Proof.
  induction l as [|x l IH]; simpl; intros Hnd Hu Hu' E; [contradiction|].
  inversion Hnd as [|? ? Hx Hl]; subst.
  destruct Hu as [<-|Hu], Hu' as [<-|Hu'].
  - reflexivity.
  - exfalso. apply Hx. rewrite E. apply in_map, Hu'.
  - exfalso. apply Hx. rewrite <- E. apply in_map, Hu.
  - apply IH; assumption.
Qed.

(** X9: for an id that is stored, with a store that answers the handler's
    connection and query, get_user answers 200 with a stored user that has
    this id; when ids are not repeated it is the only one. *)
Theorem X9_get_user_found (user_id : Z) (w : World) :
  stored user_id w ->
  reachable 2 w ->
  exists u,
    fst (GET_user user_id w) = Json 200 (UserResponse.mk u)
    /\ In u (users (tables w))
    /\ id u = user_id
    /\ (NoDup (map id (users (tables w))) ->
        forall u', In u' (users (tables w)) -> id u' = user_id -> u' = u).
Proof.
  destruct w as [t us ls ss nc f n0 sv env lg].
  unfold stored, reachable, GET_user, serve, get_user. sim. intros Hs Hf.
  destruct (find_stored user_id _ Hs) as (u & Hfind & Hin & Hid).
  exists u. split.
  - destruct f as [|[|msg] [|[|msg'] f]]; try contradiction;
      unfold_driver; sim; rewrite Hfind; sim; log_step; reflexivity.
  - split; [exact Hin|]. split; [exact Hid|].
    intros Hnd u' Hin' Hid'. apply (unique_by_id (users t)); congruence.
Qed.

Lemma X9_get_user_found_witness :
  exists u,
    fst (GET_user 2 sample) = Json 200 (UserResponse.mk u)
    /\ In u (users (tables sample))
    /\ id u = 2
    /\ (NoDup (map id (users (tables sample))) ->
        forall u', In u' (users (tables sample)) -> id u' = 2 -> u' = u).
Proof.
  apply (X9_get_user_found 2 sample).
  - exists (mkUser 2 "Bob" "bob@x.com" 20). split; [simpl; auto | reflexivity].
  - simpl. exact I.
Defined.

Lemma filter_stored_length (user_id : Z) (l : list User) :
  (exists u, In u l /\ id u = user_id) ->
  (0 <? Z.of_nat (List.length (filter (fun u => id u =? user_id) l))) = true.
Proof.
  intros (u & Hin & Hid).
  assert (H : In u (filter (fun u => id u =? user_id) l)).
  { apply filter_In. split; [exact Hin|]. apply Z.eqb_eq, Hid. }
  destruct (filter (fun u => id u =? user_id) l); [contradiction|].
  simpl List.length. apply Z.ltb_lt. lia.
Qed.

Lemma missing_after_filter (user_id : Z) (l : list User) :
  forall u, In u (filter (fun u => negb (id u =? user_id)) l) -> id u <> user_id.
Proof.
  intros u Hu. apply filter_In in Hu as [_ Hu].
  apply negb_true_iff, Z.eqb_neq in Hu. exact Hu.
Qed.

(** With a store that answers its connection, DELETE and commit,
    delete_user of a stored id answers 200 and removes the users with this
    id. *)
Lemma delete_user_deletes (user_id : Z) (w : World) :
  stored user_id w ->
  reachable 3 w ->
  fst (DELETE_user user_id w)
  = Json 200 (MessageResponse.mk "User deleted successfully")
  /\ users (tables (snd (DELETE_user user_id w)))
     = filter (fun u => negb (id u =? user_id)) (users (tables w)).
Proof.
  destruct w as [t us ls ss nc f n0 sv env lg].
  unfold stored, reachable, DELETE_user, serve, delete_user. sim. intros Hs Hf.
  pose proof (filter_stored_length user_id _ Hs) as Hlen.
  destruct f as [|[|msg] [|[|msg'] [|[|msg''] f]]]; try contradiction;
    unfold_driver; sim; rewrite Hlen; sim; log_step;
    destruct L as (Hu & _); (split; [reflexivity | exact Hu]).
Qed.

(** X10: for an id that is stored, with a store that answers the handler's
    connection, DELETE and commit, delete_user answers 200, no user with
    this id is stored any more, and every other user is still stored. *)
Theorem X10_delete_user_deletes (user_id : Z) (w : World) :
  stored user_id w ->
  reachable 3 w ->
  fst (DELETE_user user_id w)
  = Json 200 (MessageResponse.mk "User deleted successfully")
  /\ missing user_id (snd (DELETE_user user_id w))
  /\ (forall u, In u (users (tables w)) -> id u <> user_id ->
      In u (users (tables (snd (DELETE_user user_id w))))).
Proof.
  intros Hs Hf. destruct (delete_user_deletes user_id w Hs Hf) as [Hd Hu].
  split; [exact Hd|]. split.
  - unfold missing. rewrite Hu. apply missing_after_filter.
  - intros u Hin Hne. rewrite Hu. apply filter_In. split; [exact Hin|].
    apply negb_true_iff, Z.eqb_neq, Hne.
Qed.

Lemma X10_delete_user_deletes_witness :
  fst (DELETE_user 1 sample)
  = Json 200 (MessageResponse.mk "User deleted successfully")
  /\ missing 1 (snd (DELETE_user 1 sample))
  /\ (forall u, In u (users (tables sample)) -> id u <> 1 ->
      In u (users (tables (snd (DELETE_user 1 sample))))).
Proof.
  apply (X10_delete_user_deletes 1 sample).
  - exists (mkUser 1 "Ann" "ann@x.com" 10). split; [simpl; auto | reflexivity].
  - simpl. exact I.
Defined.

(** X11: a delete_user that does not answer 200 leaves the users as they
    were, whatever the store does: a DELETE whose commit fails removes
    nothing. *)
Theorem X11_delete_user_atomic (user_id : Z) (w : World) :
  reply_status (fst (DELETE_user user_id w)) <> 200 ->
  users (tables (snd (DELETE_user user_id w))) = users (tables w).
Proof.
  destruct w as [t us ls ss nc f n0 sv env lg].
  unfold DELETE_user, serve, delete_user. unfold_driver.
  paths; repeat log_step; intros H; try (exfalso; apply H; reflexivity);
    intuition congruence.
Qed.

Lemma X11_delete_user_atomic_witness :
  let w := with_faults [Succeeds; Succeeds; Raises "connection reset"] sample in
  reply_status (fst (DELETE_user 1 w)) = 500
  /\ users (tables (snd (DELETE_user 1 w))) = users (tables w).
Proof.
  intros w. split; [reflexivity|].
  apply (X11_delete_user_atomic 1 w). simpl. lia.
Defined.

(** ** Requests one after the other *)

Lemma healthy_preserved (r : Route) (w : World) :
  healthy w -> healthy (snd (handle r w)).
Proof.
  destruct w as [t us ls ss nc f n0 sv env lg].
  unfold healthy. sim. intros ->.
  destruct r; unfold_routes; unfold_driver; sim.
  - log_step. destruct L as (_ & _ & _ & _ & _ & _ & Hh). destruct (Hh eq_refl) as [Hf _].
    destruct w' as [t' us' ls' ss' nc' f' n' sv' env' lg']. sim. subst f'. reflexivity.
  - log_step. destruct L as (_ & _ & _ & _ & _ & _ & Hh). destruct (Hh eq_refl) as [Hf _].
    destruct w' as [t' us' ls' ss' nc' f' n' sv' env' lg']. sim. subst f'. reflexivity.
  - paths; repeat log_step; intuition.
  - paths; repeat log_step; intuition.
  - paths; repeat log_step; intuition.
  - paths; repeat log_step; intuition.
  - paths; repeat log_step; intuition.
  - paths; reflexivity.
Qed.

Lemma missing_is_404 (user_id : Z) (w : World) :
  missing user_id w ->
  reachable 2 w ->
  fst (GET_user user_id w) = ErrorDetail 404 "User not found"
  /\ fst (DELETE_user user_id w) = ErrorDetail 404 "User not found".
Proof.
  destruct w as [t us ls ss nc f n0 sv env lg].
  unfold missing, reachable, GET_user, DELETE_user, serve, get_user, delete_user.
  sim. intros Hm Hf.
  pose proof (find_missing user_id _ Hm) as Hfind.
  pose proof (filter_missing user_id _ Hm) as Hfilter.
  destruct f as [|[|msg] [|[|msg'] f]]; try contradiction;
    unfold_driver; sim; rewrite Hfind, Hfilter; sim;
    change (0 <? Z.of_nat 0) with false; sim;
    repeat log_step; split; reflexivity.
Qed.

Lemma healthy_reachable (n : nat) (w : World) : healthy w -> reachable n w.
Proof. unfold healthy, reachable. intros ->. destruct n; exact I. Qed.

(** X12: on a store that answers, once delete_user has answered 200 for an
    id, get_user and a second delete_user for the same id both answer
    404. *)
Theorem X12_deleted_is_gone (user_id : Z) (w : World) :
  stored user_id w ->
  healthy w ->
  let w1 := snd (DELETE_user user_id w) in
  fst (DELETE_user user_id w) = Json 200 (MessageResponse.mk "User deleted successfully")
  /\ fst (GET_user user_id w1) = ErrorDetail 404 "User not found"
  /\ fst (DELETE_user user_id w1) = ErrorDetail 404 "User not found".
Proof.
  intros Hs Hh w1.
  destruct (delete_user_deletes user_id w Hs (healthy_reachable 3 w Hh))
    as (Hd & Hu).
  split; [exact Hd|].
  apply missing_is_404; [unfold missing, w1; rewrite Hu; apply missing_after_filter|].
  apply healthy_reachable. exact (healthy_preserved (R_delete_user user_id) w Hh).
Qed.

Lemma X12_deleted_is_gone_witness :
  let w1 := snd (DELETE_user 1 sample) in
  fst (DELETE_user 1 sample) = Json 200 (MessageResponse.mk "User deleted successfully")
  /\ fst (GET_user 1 w1) = ErrorDetail 404 "User not found"
  /\ fst (DELETE_user 1 w1) = ErrorDetail 404 "User not found".
Proof.
  apply (X12_deleted_is_gone 1 sample).
  - exists (mkUser 1 "Ann" "ann@x.com" 10). split; [simpl; auto | reflexivity].
  - reflexivity.
Defined.







(** ** GROUP BY endpoint, method, status_code *)

Lemma key_eqb_eq (a b : string * string * Z) : key_eqb a b = true <-> a = b.
Proof.
  destruct a as [[a1 a2] a3], b as [[b1 b2] b3]. unfold key_eqb. simpl.
  rewrite !andb_true_iff, !String.eqb_eq, Z.eqb_eq.
  split; [intros [[-> ->] ->]; reflexivity | intros [= -> -> ->]; auto].
Qed.

Lemma key_eqb_refl (a : string * string * Z) : key_eqb a a = true.
Proof. apply key_eqb_eq. reflexivity. Qed.

Lemma key_eqb_sym (a b : string * string * Z) : key_eqb a b = key_eqb b a.
Proof.
  destruct (key_eqb a b) eqn:E1, (key_eqb b a) eqn:E2; try reflexivity.
  - apply key_eqb_eq in E1. subst. rewrite key_eqb_refl in E2. discriminate.
  - apply key_eqb_eq in E2. subst. rewrite key_eqb_refl in E1. discriminate.
Qed.

Lemma same_request_key (r : LogRow) (c : RequestCount) :
  same_request r c = key_eqb (log_entry r) (request_key c).
Proof. reflexivity. Qed.

Lemma tally_weight (k : string * string * Z) (r : LogRow) (g : list RequestCount) :
  weight k (tally r g) = weight k g + (if key_eqb (log_entry r) k then 1 else 0).
Proof.
  induction g as [|c g IH]; simpl.
  - change (key_eqb (request_key (mkRequestCount (endpoint r) (method r) (status_code r) 1)) k)
      with (key_eqb (log_entry r) k).
    destruct (key_eqb (log_entry r) k); lia.
  - rewrite same_request_key. destruct (key_eqb (log_entry r) (request_key c)) eqn:E.
    + apply key_eqb_eq in E. simpl.
      change (request_key (mkRequestCount (rc_endpoint c) (rc_method c) (rc_status_code c)
                             (rc_count c + 1))) with (request_key c).
      rewrite E. destruct (key_eqb (request_key c) k); lia.
    + simpl. rewrite IH. lia.
Qed.

Lemma tally_keys (r : LogRow) (g : list RequestCount) :
  map request_key (tally r g)
  = if existsb (fun c => key_eqb (log_entry r) (request_key c)) g
    then map request_key g
    else map request_key g ++ [log_entry r].
Proof.
  induction g as [|c g IH]; simpl; [reflexivity|].
  rewrite same_request_key. destruct (key_eqb (log_entry r) (request_key c)); simpl.
  - reflexivity.
  - rewrite IH. destruct (existsb _ g); reflexivity.
Qed.

Lemma tally_NoDup (r : LogRow) (g : list RequestCount) :
  NoDup (map request_key g) -> NoDup (map request_key (tally r g)).
Proof.
  intros H. rewrite tally_keys.
  destruct (existsb (fun c => key_eqb (log_entry r) (request_key c)) g) eqn:E; [exact H|].
  apply NoDup_app; [exact H | constructor; [intros [] | constructor] |].
  intros k Hk [<-|[]]. apply in_map_iff in Hk as (c & Hc & Hin).
  assert (X : existsb (fun c => key_eqb (log_entry r) (request_key c)) g = true).
  { apply existsb_exists. exists c. split; [exact Hin|]. apply key_eqb_eq. auto. }
  congruence.
Qed.

Lemma tally_key_in (r : LogRow) (g : list RequestCount) (k : string * string * Z) :
  In k (map request_key (tally r g)) <-> In k (map request_key g) \/ k = log_entry r.
Proof.
  rewrite tally_keys.
  destruct (existsb (fun c => key_eqb (log_entry r) (request_key c)) g) eqn:E.
  - split; [auto|]. intros [H | ->]; [exact H|].
    apply existsb_exists in E as (c & Hin & Hc). apply key_eqb_eq in Hc.
    rewrite Hc. apply in_map, Hin.
  - rewrite in_app_iff. simpl. intuition.
Qed.

Lemma occurrences_snoc (k : string * string * Z) (rows : list LogRow) (r : LogRow) :
  occurrences k (rows ++ [r])
  = occurrences k rows + (if key_eqb (log_entry r) k then 1 else 0).
Proof.
  unfold occurrences. rewrite filter_app, length_app. simpl.
  destruct (key_eqb (log_entry r) k); simpl; lia.
Qed.

(** What the fold of [tally] keeps: distinct keys, weights that count the
    rows, and no key without a row. *)
Lemma group_by_fold (rows done : list LogRow) (acc : list RequestCount) :
  NoDup (map request_key acc) ->
  (forall k, weight k acc = occurrences k done) ->
  (forall k, In k (map request_key acc) <-> In k (map log_entry done)) ->
  let g := fold_left (fun groups r => tally r groups) rows acc in
  NoDup (map request_key g)
  /\ (forall k, weight k g = occurrences k (done ++ rows))
  /\ (forall k, In k (map request_key g) <-> In k (map log_entry (done ++ rows))).
Proof.
  revert done acc. induction rows as [|r rows IH]; intros done acc Hnd Hw Hk; simpl.
  - rewrite app_nil_r. auto.
  - replace (done ++ r :: rows) with ((done ++ [r]) ++ rows)
      by (rewrite <- app_assoc; reflexivity).
    apply IH.
    + apply tally_NoDup, Hnd.
    + intros k. rewrite tally_weight, occurrences_snoc, Hw. reflexivity.
    + intros k. rewrite tally_key_in, map_app, in_app_iff, Hk. simpl. intuition.
Qed.

Lemma weight_absent (k : string * string * Z) (g : list RequestCount) :
  ~ In k (map request_key g) -> weight k g = 0.
Proof.
  induction g as [|c g IH]; simpl; intros H; [reflexivity|].
  destruct (key_eqb (request_key c) k) eqn:E.
  - apply key_eqb_eq in E. exfalso. apply H. left. exact E.
  - rewrite IH; [reflexivity|]. intros X. apply H. right. exact X.
Qed.

Lemma weight_of_group (c : RequestCount) (g : list RequestCount) :
  NoDup (map request_key g) -> In c g -> weight (request_key c) g = rc_count c.
Proof.
  induction g as [|x g IH]; simpl; intros Hnd Hin; [contradiction|].
  inversion Hnd as [|? ? Hx Hg]; subst. destruct Hin as [->|Hin].
  - rewrite key_eqb_refl, weight_absent; [lia | exact Hx].
  - destruct (key_eqb (request_key x) (request_key c)) eqn:E.
    + apply key_eqb_eq in E. exfalso. apply Hx. rewrite E. apply in_map, Hin.
    + rewrite IH; auto.
Qed.

(** GROUP BY, as [group_by_request] does it: one group for each key that
    occurs, counting the rows that have it. *)
Lemma group_by_request_spec (rows : list LogRow) :
  NoDup (map request_key (group_by_request rows))
  /\ (forall c, In c (group_by_request rows) ->
        rc_count c
        = Z.of_nat (List.length (filter (fun r => same_request r c) rows))
        /\ 0 < rc_count c)
  /\ (forall r, In r rows ->
        exists c, In c (group_by_request rows) /\ same_request r c = true).
Proof.
  destruct (group_by_fold rows [] []) as (Hnd & Hw & Hk).
  - constructor.
  - reflexivity.
  - reflexivity.
  - simpl in Hw, Hk. fold (group_by_request rows) in *.
    split; [exact Hnd|]. split.
    + intros c Hc.
      assert (E : rc_count c = occurrences (request_key c) rows).
      { rewrite <- Hw. symmetry. apply weight_of_group; assumption. }
      split; [exact E|]. rewrite E.
      assert (Hin : In (request_key c) (map log_entry rows)).
      { apply Hk, in_map, Hc. }
      apply in_map_iff in Hin as (r & Hr & Hin).
      unfold occurrences.
      assert (X : In r (filter (fun r => key_eqb (log_entry r) (request_key c)) rows)).
      { apply filter_In. split; [exact Hin|]. apply key_eqb_eq, Hr. }
      destruct (filter _ rows); [contradiction | simpl; lia].
    + intros r Hr.
      assert (Hin : In (log_entry r) (map request_key (group_by_request rows))).
      { apply Hk, in_map, Hr. }
      apply in_map_iff in Hin as (c & Hc & Hin).
      exists c. split; [exact Hin|]. rewrite same_request_key. apply key_eqb_eq. auto.
Qed.

(** ** GET /stats *)

Lemma get_stats_answer (w : World) :
  reachable 3 w ->
  fst (GET_stats w)
  = Json 200
      (StatsResponse.mk
         (Z.of_nat (List.length (users (tables w))))
         (order_by_desc rc_count (group_by_request (recent (now w) (app_logs (tables w)))))
         "connected").
Proof.
  destruct w as [t us ls ss nc f n0 sv env lg].
  unfold reachable, GET_stats, serve, get_stats, recent. intros Hf. sim.
  destruct f as [|[|msg] [|[|msg'] [|[|msg''] f]]]; try contradiction;
    unfold_driver; sim; log_step; reflexivity.
Qed.

Lemma total_perm (g g' : list RequestCount) :
  Permutation g g' -> total g = total g'.
Proof.
  unfold total. induction 1; simpl; lia.
Qed.

Lemma total_tally (r : LogRow) (g : list RequestCount) :
  total (tally r g) = total g + 1.
Proof.
  unfold total. induction g as [|c g IH]; simpl; [lia|].
  destruct (same_request r c); simpl; lia.
Qed.

Lemma total_fold (rows : list LogRow) :
  forall acc,
    total (fold_left (fun groups r => tally r groups) rows acc)
    = total acc + Z.of_nat (List.length rows).
Proof.
  induction rows as [|r rows IH]; intros acc; simpl List.length; simpl fold_left.
  - lia.
  - rewrite IH, total_tally. lia.
Qed.

(** X15: with a store that answers the handler's connection and both
    queries, get_stats answers 200 with the number of stored users, with
    database_status connected, and with aggregates ordered from the largest
    count to the smallest whose counts add up to the number of rows that
    app_logs held for the last hour before the request. *)
Theorem X15_get_stats_counts (w : World) :
  reachable 3 w ->
  exists resp,
    fst (GET_stats w) = Json 200 resp
    /\ StatsResponse.user_count resp = Z.of_nat (List.length (users (tables w)))
    /\ StatsResponse.database_status resp = "connected"
    /\ StronglySorted (fun a b => rc_count b <= rc_count a)
         (StatsResponse.recent_requests resp)
    /\ total (StatsResponse.recent_requests resp)
       = Z.of_nat (List.length (recent (now w) (app_logs (tables w)))).
Proof.
  intros Hf. eexists. split; [apply get_stats_answer, Hf|]. simpl.
  split; [reflexivity|]. split; [reflexivity|].
  split; [apply order_by_desc_sorted|].
  rewrite <- (total_perm _ _ (order_by_desc_perm rc_count _)).
  unfold group_by_request. rewrite total_fold. reflexivity.
Qed.

Lemma X15_get_stats_counts_witness :
  exists resp,
    fst (GET_stats (snd (GET_users sample))) = Json 200 resp
    /\ StatsResponse.user_count resp = 2
    /\ total (StatsResponse.recent_requests resp) = 1.
Proof.
  destruct (X15_get_stats_counts (snd (GET_users sample))) as (resp & H1 & H2 & _ & _ & H5).
  - simpl. exact I.
  - exists resp. split; [exact H1|]. split; [exact H2 | exact H5].
Defined.

(** X16: in that answer each aggregate counts exactly the rows of the last
    hour that have its endpoint, its method and its status code, it counts
    at least one, no two aggregates share the three, and every row of the
    last hour is counted by one of them. *)
Theorem X16_get_stats_groups (w : World) :
  reachable 3 w ->
  exists resp,
    fst (GET_stats w) = Json 200 resp
    /\ NoDup (map request_key (StatsResponse.recent_requests resp))
    /\ (forall c, In c (StatsResponse.recent_requests resp) ->
          rc_count c
          = Z.of_nat (List.length (filter (fun r => same_request r c)
                                     (recent (now w) (app_logs (tables w)))))
          /\ 0 < rc_count c)
    /\ (forall r, In r (app_logs (tables w)) -> now w - 3600 < timestamp r ->
          exists c, In c (StatsResponse.recent_requests resp)
                    /\ same_request r c = true).
Proof.
  intros Hf. eexists. split; [apply get_stats_answer, Hf|]. simpl.
  set (rows := recent (now w) (app_logs (tables w))).
  destruct (group_by_request_spec rows) as (Hnd & Hc & Hr).
  pose proof (order_by_desc_perm rc_count (group_by_request rows)) as P.
  split; [|split].
  - eapply Permutation_NoDup; [apply Permutation_map, P | exact Hnd].
  - intros c Hin. apply Hc. eapply Permutation_in; [apply Permutation_sym, P | exact Hin].
  - intros r Hin Ht. destruct (Hr r) as (c & Hcin & Hs).
    + unfold rows, recent. apply filter_In. split; [exact Hin|]. apply Z.ltb_lt, Ht.
    + exists c. split; [eapply Permutation_in; [exact P | exact Hcin] | exact Hs].
Qed.

Lemma X16_get_stats_groups_witness :
  exists resp,
    fst (GET_stats (snd (GET_users sample))) = Json 200 resp
    /\ NoDup (map request_key (StatsResponse.recent_requests resp)).
Proof.
  destruct (X16_get_stats_groups (snd (GET_users sample))) as (resp & H1 & H2 & _).
  - simpl. exact I.
  - exists resp. split; [exact H1 | exact H2].
Defined.

(** ** Distinct ids and distinct emails *)

Lemma existsb_none (k : Z) (e : string) (l : list User) :
  existsb (fun u => (id u =? k) || String.eqb (email u) e) l = false ->
  ~ In k (map id l) /\ ~ In e (map email l).
Proof.
  induction l as [|u l IH]; simpl; intros H; [tauto|].
  apply orb_false_iff in H as [Hu Hl]. apply orb_false_iff in Hu as [Hi He].
  apply Z.eqb_neq in Hi. apply String.eqb_neq in He.
  destruct (IH Hl) as [H1 H2]. split; intros [X|X]; auto.
Qed.

(** A column without repeated values stays so when a row with a new value
    is added at the end, and when rows are removed. *)
Lemma column_distinct_insert {B} (column : User -> B) (rows : list User) (new : User) :
  ~ In (column new) (map column rows) ->
  NoDup (map column rows) ->
  NoDup (map column (rows ++ [new])).
Proof.
  intros Hnew Hrows. rewrite map_app. apply NoDup_app; simpl.
  - exact Hrows.
  - apply NoDup_cons; [tauto | apply NoDup_nil].
  - intros v Hv [<-|[]]. exact (Hnew Hv).
Qed.

Lemma column_distinct_filter {B} (column : User -> B) (keep : User -> bool)
    (rows : list User) :
  NoDup (map column rows) ->
  NoDup (map column (filter keep rows)).
Proof.
  induction rows as [|row rows IH]; simpl; intros Hrows; [apply NoDup_nil|].
  apply NoDup_cons_iff in Hrows as [Hrow Hrest].
  destruct (keep row); simpl; [|exact (IH Hrest)].
  apply NoDup_cons; [|exact (IH Hrest)].
  intros Hin. apply Hrow.
  apply in_map_iff in Hin as (other & Hv & Hother).
  apply filter_In in Hother as [Hother _].
  rewrite <- Hv. apply in_map, Hother.
Qed.

Lemma distinct_insert (l : list User) (k ts : Z) (n e : string) :
  existsb (fun u => (id u =? k) || String.eqb (email u) e) l = false ->
  NoDup (map id l) /\ NoDup (map email l) ->
  NoDup (map id (l ++ [mkUser k n e ts]))
  /\ NoDup (map email (l ++ [mkUser k n e ts])).
Proof.
  intros H [Hi He]. destruct (existsb_none k e l H) as [Hk Hm].
  split; apply column_distinct_insert; assumption.
Qed.

Lemma distinct_filter (p : User -> bool) (l : list User) :
  NoDup (map id l) /\ NoDup (map email l) ->
  NoDup (map id (filter p l)) /\ NoDup (map email (filter p l)).
Proof. intros [Hi He]. split; apply column_distinct_filter; assumption. Qed.

Ltac distinct_done :=
  unfold distinct_users in *; sim;
  repeat match goal with
         | L : _ /\ _ /\ _ |- _ => destruct L as (? & L)
         end;
  repeat match goal with
         | E : users _ = _ |- _ => rewrite E
         end;
  first [ assumption | apply distinct_insert; assumption | apply distinct_filter; assumption ].

(** Every handler keeps ids and emails distinct, whatever the store does
    during the request. *)
Lemma distinct_users_preserved (r : Route) (w : World) :
  distinct_users w -> distinct_users (snd (handle r w)).
Proof.
  destruct w as [t us ls ss nc f n0 sv env lg].
  intros Hok.
  destruct r; unfold_routes; unfold_driver; sim.
  - log_step. destruct w' as [t' us' ls' ss' nc' f' n' sv' env' lg']. paths; distinct_done.
  - log_step. destruct w' as [t' us' ls' ss' nc' f' n' sv' env' lg']. paths; distinct_done.
  - paths; repeat log_step; distinct_done.
  - paths; repeat log_step; distinct_done.
  - paths; repeat log_step; distinct_done.
  - paths; repeat log_step; distinct_done.
  - paths; repeat log_step; distinct_done.
  - paths; distinct_done.
Qed.

(** X17: in every world that the application reaches from a users table
    without rows, whatever faults occur on the way, no two stored users
    have the same id and no two have the same email. *)
Theorem X17_users_stay_distinct (w : World) :
  served w ->
  NoDup (map id (users (tables w))) /\ NoDup (map email (users (tables w))).
Proof.
  induction 1 as [w E|r w _ IH|f w _ IH|t w _ IH].
  - rewrite E. split; constructor.
  - exact (distinct_users_preserved r w IH).
  - exact IH.
  - exact IH.
Qed.

Lemma X17_users_stay_distinct_witness :
  let w := snd (handle (R_create_user "Ann" "ann@x.com")
                  (snd (handle (R_create_user "Ann" "ann@x.com") fresh))) in
  NoDup (map id (users (tables w))) /\ NoDup (map email (users (tables w))).
Proof.
  intros w. apply (X17_users_stay_distinct w).
  apply served_request, served_request, served_start. reflexivity.
Defined.

(** ** The password stays in the configuration *)

Lemma log_request_same_but_environ (ep m : string) (s : Z) (w1 w2 : World) :
  same_but_environ w1 w2 ->
  same_but_environ (snd (log_request ep m s w1)) (snd (log_request ep m s w2)).
Proof.
  destruct w1 as [t us ls ss nc f n0 sv env1 lg].
  destruct w2 as [t2 us2 ls2 ss2 nc2 f2 n2 sv2 env2 lg2].
  unfold same_but_environ at 1. sim.
  intros (<- & <- & <- & <- & <- & <- & <- & <- & <-).
  unfold log_request. unfold_driver. paths; rel_done same_but_environ.
Qed.

Ltac environ_done :=
  repeat match goal with
         | H : same_but_environ _ _ |- _ =>
             unfold same_but_environ in H; sim;
             destruct H as (? & ? & ? & ? & ? & ? & ? & ? & ?)
         end;
  first [ split; first [reflexivity | congruence] | reflexivity | congruence ].

(** X18: no response and no line written through logging depends on the
    configured password: for every endpoint, two runs that differ only in
    DB_PASSWORD and meet the same faults produce the same response and the
    same log lines. *)
Theorem X18_password_never_leaves (r : Route) (w : World) (p p' : string) :
  reply_of r (with_password p w) = reply_of r (with_password p' w)
  /\ logger (snd (handle r (with_password p w)))
     = logger (snd (handle r (with_password p' w))).
Proof.
  destruct w as [t us ls ss nc f n0 sv env lg].
  unfold with_password.
  destruct r; unfold_routes; unfold_driver; sim.
  - rel_step same_but_environ log_request_same_but_environ.
    open_rel same_but_environ. paths; split; reflexivity.
  - rel_step same_but_environ log_request_same_but_environ.
    open_rel same_but_environ. paths; split; reflexivity.
  - paths; try rel_step same_but_environ log_request_same_but_environ; environ_done.
  - paths; try rel_step same_but_environ log_request_same_but_environ; environ_done.
  - paths; try rel_step same_but_environ log_request_same_but_environ; environ_done.
  - paths; try rel_step same_but_environ log_request_same_but_environ; environ_done.
  - paths; try rel_step same_but_environ log_request_same_but_environ; environ_done.
  - paths; rewrite ?(redacted_hides_password p p' env); split; reflexivity.
Qed.

(** ** GET /db-test *)

Lemma redacted_keys (cfg : list (string * string)) :
  map fst (redacted cfg) = map fst cfg.
Proof.
  unfold redacted. rewrite map_map. apply map_ext. reflexivity.
Qed.

Lemma redacted_lookup (cfg : list (string * string)) (k : string) :
  lookup k (redacted cfg)
  = if String.eqb k "password"
    then match lookup k cfg with Some _ => Some "***" | None => None end
    else lookup k cfg.
Proof.
  induction cfg as [|[k' v] cfg IH]; simpl.
  - destruct (String.eqb k "password"); reflexivity.
  - destruct (String.eqb_spec k' k) as [->|Hne].
    + rewrite String.eqb_sym. destruct (String.eqb "password" k); reflexivity.
    + exact IH.
Qed.

(** X19: with a store that answers its connection and both queries,
    test_database answers 200 with status success, the version that the
    server reports and the configured database name; on every path the
    echoed configuration has the keys of DB_CONFIG in their order and, for
    every key but password, the configured value. *)
Theorem X19_test_database_echo (w : World) :
  exists resp,
    fst (GET_db_test w) = Json 200 resp
    /\ map fst (DatabaseTestResponse.config resp)
       = ["host"; "database"; "user"; "password"; "port"]
    /\ (forall k, k <> "password" ->
          lookup k (DatabaseTestResponse.config resp)
          = lookup k (DB_CONFIG (environ w)))
    /\ (reachable 3 w ->
        DatabaseTestResponse.status resp = "success"
        /\ DatabaseTestResponse.message resp = "Database connection successful"
        /\ DatabaseTestResponse.postgresql_version resp = Some (server_version w)
        /\ DatabaseTestResponse.current_database resp
           = lookup "database" (DB_CONFIG (environ w))).
Proof.
  destruct w as [t us ls ss nc f n0 sv env lg].
  unfold GET_db_test, serve, test_database, reachable. unfold_driver.
  paths; (eexists; split; [reflexivity|]); sim;
    (split; [apply redacted_keys|]);
    (split; [intros k Hk; rewrite redacted_lookup;
             destruct (String.eqb_spec k "password"); [contradiction | reflexivity]|]);
    intros H; first [contradiction | repeat split].
Qed.

(** ** Connections on the paths where nothing raises *)

Lemma create_user_closes (n e : string) (w : World) :
  healthy w ->
  handles_issued w ->
  fst (handle (R_create_user n e) w) = 201 ->
  open_connections (snd (handle (R_create_user n e) w)) = open_connections w.
Proof.
  destruct w as [t us ls ss nc f n0 sv env lg].
  unfold healthy, handles_issued, open_connections. sim.
  intros -> Hss.
  pose proof (drop_session_absent nc ss Hss) as D0.
  pose proof (drop_session_absent_S nc ss Hss) as D1.
  unfold handle, status_and_world, POST_reply, serve, create_user, log_request.
  unfold_driver; sim.
  change (varchar 100 "/users") with (Some "/users").
  change (varchar 10 "POST") with (Some "POST").
  sim. repeat (split_data; sim); rewrite ?D0, ?D1; sim; rewrite ?D0, ?D1;
    intros H; first [discriminate H | reflexivity].
Qed.

(** X20: on a store that answers, with an endpoint that fits its column,
    the handlers of GET /users, GET and DELETE /users/{user_id}, /stats and
    /db-test leave open exactly the connections that were open before the
    request, on their found and not-found paths alike, and so does
    create_user when it answers 201. *)
Theorem X20_normal_paths_close (r : Route) (w : World) :
  healthy w ->
  handles_issued w ->
  (String.length (route_endpoint r) <= 100)%nat ->
  closing_route r = true
  \/ (exists n e, r = R_create_user n e /\ fst (handle r w) = 201) ->
  open_connections (snd (handle r w)) = open_connections w.
Proof.
  intros Hh Hss Hlen [Hr | (n & e & -> & H201)].
  - apply closing_routes_close; assumption.
  - apply create_user_closes; assumption.
Qed.

Lemma X20_normal_paths_close_witness :
  open_connections (snd (handle (R_create_user "Eve" "eve@x.com") sample))
  = open_connections sample.
Proof.
  apply (X20_normal_paths_close (R_create_user "Eve" "eve@x.com") sample).
  - reflexivity.
  - unfold handles_issued. simpl. intros c [].
  - simpl. lia.
  - right. exists "Eve", "eve@x.com". split; reflexivity.
Defined.

(** ** The audit log of a run *)

Lemma writes_log_true (r : Route) : writes_log r = true -> r <> R_test_database.
Proof. intros H ->. discriminate H. Qed.

Lemma writes_log_false (r : Route) : writes_log r = false -> r = R_test_database.
Proof. destruct r; intros H; try discriminate H. reflexivity. Qed.



(** X22: whatever the store does, a run of requests only appends to
    app_logs, at most one row for each request, and every row that it adds
    records the endpoint, the method and the status code of the response
    to one of the requests of the run. *)
Theorem X22_audit_log_append_only (rs : list Route) (w : World) :
  exists rows,
    app_logs (tables (snd (serve_all rs w))) = app_logs (tables w) ++ rows
    /\ (List.length rows <= List.length rs)%nat
    /\ (forall row, In row rows ->
          In (log_entry row) (entries_of rs (fst (serve_all rs w)))).
Proof.
  revert w. induction rs as [|r rs IH]; intros w; simpl.
  - exists []. rewrite app_nil_r. split; [reflexivity|]. split; [simpl; lia | intros row []].
  - destruct (handle r w) as [s w1] eqn:E.
    assert (Es : s = fst (handle r w)) by (rewrite E; reflexivity).
    assert (Ew : w1 = snd (handle r w)) by (rewrite E; reflexivity).
    destruct (IH w1) as (rows & Ha & Hl & Hin).
    destruct (serve_all rs w1) as [ss w2] eqn:E2. simpl in *.
    unfold entries_of in *. simpl.
    destruct (writes_log r) eqn:Hw.
    + destruct (request_audit r w (writes_log_true r Hw)) as [Haud _].
      rewrite <- Ew, <- Es in Haud.
      destruct Haud as [Hsame | (row & Hrow & He & Hme & Hs)].
      * exists rows. rewrite Ha, Hsame. split; [reflexivity|]. split; [simpl; lia|].
        intros row Hr. right. apply Hin, Hr.
      * exists (row :: rows). rewrite Ha, Hrow, <- app_assoc. simpl.
        split; [reflexivity|]. split; [simpl; lia|].
        intros row' [<-|Hr]; [left | right; apply Hin, Hr].
        unfold log_entry, log_entry_of. simpl. congruence.
    + apply writes_log_false in Hw. subst r.
      pose proof (test_database_unlogged w) as Hu. rewrite <- Ew in Hu.
      exists rows. rewrite Ha, Hu. split; [reflexivity|]. split; [simpl; lia | exact Hin].
Qed.

(** ** The status codes of the handlers *)

(** X23: whatever the store does, / , /health and /db-test answer 200,
    GET /users and /stats answer 200 or 500, POST /users answers 201, 409
    or 500, and GET and DELETE /users/{user_id} answer 200, 404 or 500. *)
Theorem X23_status_codes (r : Route) (w : World) :
  In (fst (handle r w)) (statuses_of r).
Proof.
  destruct w as [t us ls ss nc f n0 sv env lg].
  destruct r; unfold_routes; unfold_driver; sim.
  - log_step. destruct w' as [t' us' ls' ss' nc' f' n' sv' env' lg']. paths; simpl; auto.
  - log_step. destruct w' as [t' us' ls' ss' nc' f' n' sv' env' lg']. paths; simpl; auto.
  - paths; repeat log_step; simpl; auto.
  - paths; repeat log_step; simpl; auto.
  - paths; repeat log_step; simpl; auto.
  - paths; repeat log_step; simpl; auto.
  - paths; repeat log_step; simpl; auto.
  - paths; simpl; auto.
Qed.

(** ** What an answer says about the store *)

Lemma find_none_missing (user_id : Z) (l : list User) :
  find (fun u => id u =? user_id) l = None ->
  forall u, In u l -> id u <> user_id.
Proof.
  intros H u Hin E. apply (find_none _ _ H) in Hin.
  rewrite E, Z.eqb_refl in Hin. discriminate.
Qed.

Lemma find_some_stored (user_id : Z) (l : list User) (u : User) :
  find (fun u => id u =? user_id) l = Some u -> In u l /\ id u = user_id.
Proof.
  intros H. apply find_some in H as [Hin E]. apply Z.eqb_eq in E. auto.
Qed.

Lemma filter_empty_missing (user_id : Z) (l : list User) :
  (0 <? Z.of_nat (List.length (filter (fun u => id u =? user_id) l))) = false ->
  forall u, In u l -> id u <> user_id.
Proof.
  intros H u Hin E.
  assert (X : In u (filter (fun u => id u =? user_id) l)).
  { apply filter_In. split; [exact Hin | apply Z.eqb_eq, E]. }
  destruct (filter (fun u => id u =? user_id) l); [contradiction|].
  simpl List.length in H. apply Z.ltb_ge in H. lia.
Qed.

Lemma filter_some_stored (user_id : Z) (l : list User) :
  (0 <? Z.of_nat (List.length (filter (fun u => id u =? user_id) l))) = true ->
  exists u, In u l /\ id u = user_id.
Proof.
  intros H. destruct (filter (fun u => id u =? user_id) l) as [|u rest] eqn:E.
  - simpl in H. discriminate.
  - assert (X : In u (filter (fun u => id u =? user_id) l)) by (rewrite E; left; reflexivity).
    apply filter_In in X as [Hin Hid]. apply Z.eqb_eq in Hid. eauto.
Qed.

(** X24: whatever the store does, get_user answers 200 only with a stored
    user that has the requested id, and get_user and delete_user answer 404
    only for an id that no stored user has; delete_user answers 200 only
    for an id that was stored. *)
Theorem X24_answers_are_sound (user_id : Z) (w : World) :
  (forall u, fst (GET_user user_id w) = Json 200 (UserResponse.mk u) ->
     In u (users (tables w)) /\ id u = user_id)
  /\ (reply_status (fst (GET_user user_id w)) = 404 -> missing user_id w)
  /\ (reply_status (fst (DELETE_user user_id w)) = 404 -> missing user_id w)
  /\ (reply_status (fst (DELETE_user user_id w)) = 200 -> stored user_id w).
Proof.
  destruct w as [t us ls ss nc f n0 sv env lg].
  unfold missing, stored, GET_user, DELETE_user, serve, get_user, delete_user. sim.
  split; [|split; [|split]].
  - intros u. unfold_driver.
    paths; repeat log_step; intros H; try discriminate H.
    all: injection H as <-; eapply find_some_stored; eassumption.
  - unfold_driver.
    paths; repeat log_step; intros H; try discriminate H.
    all: eapply find_none_missing; eassumption.
  - unfold_driver.
    paths; repeat log_step; intros H; try discriminate H.
    all: eapply filter_empty_missing; eassumption.
  - unfold_driver.
    paths; repeat log_step; intros H; try discriminate H.
    all: eapply filter_some_stored; eassumption.
Qed.

Lemma existsb_clash (k : Z) (e : string) (l : list User) :
  existsb (fun u => (id u =? k) || String.eqb (email u) e) l = true ->
  (forall u, In u l -> id u < k) ->
  exists u, In u l /\ email u = e.
Proof.
  intros H Hids. apply existsb_exists in H as (u & Hin & Hu).
  exists u. split; [exact Hin|].
  apply orb_true_iff in Hu as [Hi | He].
  - apply Z.eqb_eq in Hi. specialize (Hids u Hin). lia.
  - apply String.eqb_eq, He.
Qed.

(** X25: whatever the store does, when stored ids were issued by the
    sequence, create_user answers 409 only if the email, as its column
    stores it, is the email of a stored user, and it answers 201 only with
    a user that has the next id of the sequence, the name and the email as
    their columns store them, and that is stored after the call. *)
Theorem X25_create_user_is_sound (n e : string) (w : World) :
  ids_issued w ->
  (reply_status (fst (POST_reply n e w)) = 409 ->
   exists e', varchar 100 e = Some e' /\ taken e' w)
  /\ (forall u, fst (POST_reply n e w) = Json 201 (UserResponse.mk u) ->
        id u = users_id_seq w
        /\ varchar 100 n = Some (name u)
        /\ varchar 100 e = Some (email u)
        /\ created_at u = now w
        /\ users (tables (snd (POST_reply n e w))) = users (tables w) ++ [u]).
Proof.
  destruct w as [t us ls ss nc f n0 sv env lg].
  unfold ids_issued, taken, POST_reply, serve, create_user. sim. intros Hids.
  split.
  - unfold_driver.
    paths; repeat log_step; intros H; try discriminate H.
    all: eexists; split; [reflexivity|]; eapply existsb_clash; eassumption.
  - intros u. unfold_driver.
    paths; repeat log_step; intros H; try discriminate H.
    all: injection H as <-; sim; repeat split; intuition congruence.
Qed.

Lemma X25_create_user_is_sound_witness :
  exists e', varchar 100 "ann@x.com" = Some e' /\ taken e' sample.
Proof.
  destruct (X25_create_user_is_sound "Eve" "ann@x.com" sample) as [H _].
  - unfold ids_issued. simpl. intros u [<-|[<-|[]]]; simpl; lia.
  - apply H. reflexivity.
Defined.
